(** * The message routing and normalisation engine of the MQTT import plugin

    A shallow embedding of [src/index.js] (the later of the two revisions the
    file holds, the one with [vessels/self] substitution, MMSI exclusion and
    persisted rules): the identifier codec, the topic matcher, the rule scan
    of [handleMQTTMessage], the deduplication map, the two payload parsers,
    the context and path derivation and the delivery step.

    Conventions of the embedding.
    - A JavaScript string is a [string]: a sequence of characters whose code
      is below 256.
    - [null] and [undefined] are [None]; a function that may return [null]
      returns an [option].
    - The module-level variables [importRules], [selfVesselUrn],
      [plugin.config.topicPrefix] and [lastReceivedMessages] are passed
      explicitly; [Date.now()] and [new Date().toISOString()] are read from
      a [Clock] argument.
    - Three services of the JavaScript runtime are not part of the
      repository and are taken as parameters (record [Runtime]):
      [JSON.parse], [Number] applied to a string, and the [RegExp]
      constructor followed by [test].  A concrete engine for the fragment
      of the regular expression language that wildcard-only patterns
      produce is given in [Module Regex]. *)

From Stdlib Require Import String Ascii ZArith Lia Bool List DecimalString.
From Stdlib Require Import Floats.PrimFloat.
From stdpp Require Import base list strings.
Import ListNotations.
Open Scope string_scope.
Open Scope list_scope.

Set Warnings "-register-all".

(** ** JavaScript strings *)

Module JsString.

(** [s.startsWith(p)] hands back what follows [p] when it succeeds. *)
Fixpoint stripPrefix (p s : string) : option string :=
  match p, s with
  | EmptyString, _ => Some s
  | String a p', String b s' => if Ascii.eqb a b then stripPrefix p' s' else None
  | String _ _, EmptyString => None
  end.

Definition startsWith (s p : string) : bool :=
  match stripPrefix p s with Some _ => true | None => false end.

(** The first occurrence of [pat] in [s]: what stands before it and what
    follows it. *)
Fixpoint splitAtFirst (pat s : string) : option (string * string) :=
  match stripPrefix pat s with
  | Some rest => Some (EmptyString, rest)
  | None =>
      match s with
      | EmptyString => None
      | String c s' =>
          match splitAtFirst pat s' with
          | Some (before, after) => Some (String c before, after)
          | None => None
          end
      end
  end.

(** [s.includes(pat)] *)
Definition includes (s pat : string) : bool :=
  match splitAtFirst pat s with Some _ => true | None => false end.

(** ECMAScript GetSubstitution for a string pattern (no capture groups):
    in the replacement text [$$] stands for a dollar sign, [$&] for the
    matched text, [$`] for what precedes the match and [$'] for what follows
    it; every other character, a lone dollar sign included, stands for
    itself. *)
Fixpoint getSubstitution (matched before after template : string) : string :=
  match template with
  | EmptyString => EmptyString
  | String c tl =>
      if Ascii.eqb c "$" then
        match tl with
        | EmptyString => String c EmptyString
        | String d rest =>
            if Ascii.eqb d "$" then String "$" (getSubstitution matched before after rest)
            else if Ascii.eqb d "&" then matched +:+ getSubstitution matched before after rest
            else if Ascii.eqb d "`" then before +:+ getSubstitution matched before after rest
            else if Ascii.eqb d "'" then after +:+ getSubstitution matched before after rest
            else String c (getSubstitution matched before after tl)
        end
      else String c (getSubstitution matched before after tl)
  end.

(** [s.replace(pat, repl)] with a string pattern: the first occurrence only. *)
Definition replace (s pat repl : string) : string :=
  match splitAtFirst pat s with
  | Some (before, after) => before +:+ getSubstitution pat before after repl +:+ after
  | None => s
  end.

(** [s.replace(/c/g, d)] for a one-character pattern [c] and a one-character
    replacement [d]. *)
Fixpoint replaceAllChar (c d : ascii) (s : string) : string :=
  match s with
  | EmptyString => EmptyString
  | String a s' => String (if Ascii.eqb a c then d else a) (replaceAllChar c d s')
  end.

(** [s.replace(/c/g, repl)] for a one-character pattern and a replacement
    text without dollar signs. *)
Fixpoint replaceAllCharStr (c : ascii) (repl : string) (s : string) : string :=
  match s with
  | EmptyString => EmptyString
  | String a s' =>
      if Ascii.eqb a c then repl +:+ replaceAllCharStr c repl s'
      else String a (replaceAllCharStr c repl s')
  end.

(** [s.replace(/lit/g, repl)] for a non-empty literal pattern and a
    replacement text without dollar signs: occurrences are taken left to
    right and do not overlap.  [skip] counts the characters of the current
    occurrence still to be passed over. *)
Fixpoint replaceAllLitFrom (skip : nat) (lit repl s : string) : string :=
  match s with
  | EmptyString => EmptyString
  | String a s' =>
      match skip with
      | S k => replaceAllLitFrom k lit repl s'
      | O =>
          match stripPrefix lit s with
          | Some _ => repl +:+ replaceAllLitFrom (String.length lit - 1) lit repl s'
          | None => String a (replaceAllLitFrom 0 lit repl s')
          end
      end
  end.

Definition replaceAllLit (lit repl s : string) : string :=
  replaceAllLitFrom 0 lit repl s.

(** [s.split(c)] for a one-character separator: never the empty array. *)
Fixpoint split (c : ascii) (s : string) : list string :=
  match s with
  | EmptyString => [EmptyString]
  | String a s' =>
      if Ascii.eqb a c then EmptyString :: split c s'
      else
        match split c s' with
        | seg :: segs => String a seg :: segs
        | [] => [String a EmptyString]
        end
  end.

(** [parts.join(sep)] *)
Fixpoint join (sep : string) (parts : list string) : string :=
  match parts with
  | [] => EmptyString
  | [p] => p
  | p :: rest => p +:+ sep +:+ join sep rest
  end.

(** White space of [String.prototype.trim] below code 256: TAB, LF, VT, FF,
    CR, SP and NBSP. *)
Definition isWhiteSpace (a : ascii) : bool :=
  let n := nat_of_ascii a in
  ((9 <=? n)%nat && (n <=? 13)%nat) || (n =? 32)%nat || (n =? 160)%nat.

Fixpoint trimStart (s : string) : string :=
  match s with
  | EmptyString => EmptyString
  | String a s' => if isWhiteSpace a then trimStart s' else s
  end.

Fixpoint trimEnd (s : string) : string :=
  match s with
  | EmptyString => EmptyString
  | String a s' =>
      match trimEnd s' with
      | EmptyString => if isWhiteSpace a then EmptyString else String a EmptyString
      | t => String a t
      end
  end.

Definition trim (s : string) : string := trimEnd (trimStart s).

(** Every character of [s] satisfies [p]. *)
Fixpoint allChars (p : ascii -> bool) (s : string) : bool :=
  match s with
  | EmptyString => true
  | String a s' => p a && allChars p s'
  end.

(** The character [c] does not occur in [s]. *)
Definition freeOf (c : ascii) (s : string) : bool :=
  allChars (fun a => negb (Ascii.eqb a c)) s.

(** A string in a boolean position: the empty string is falsy. *)
Definition truthy (s : string) : bool :=
  match s with EmptyString => false | String _ _ => true end.

(** [a || b] on strings *)
Definition orElse (a b : string) : string := if truthy a then a else b.

End JsString.

Import JsString.

(** ** 4.1 Identifier codec *)

(** [urnToMqttFormat]: [urn:mrn:imo:mmsi:368396230] to
    [urn_mrn_imo_mmsi_368396230]; [null] for a falsy argument. *)
Definition urnToMqttFormat (urn : option string) : option string :=
  match urn with
  | None => None
  | Some u => if truthy u then Some (replaceAllChar ":" "_" u) else None
  end.

(** [mqttFormatToUrn]: the way back, every underscore becomes a colon. *)
Definition mqttFormatToUrn (mqttFormat : option string) : option string :=
  match mqttFormat with
  | None => None
  | Some m => if truthy m then Some (replaceAllChar "_" ":" m) else None
  end.


(** The shape of an identifier, [urn], a namespace path and a numeric
    identifier, in the encoding whose delimiter is [sep]: [:] for the
    canonical form, [_] for the transport form.  The two encodings differ
    in the delimiter only, so a name of the path holds neither of the two
    characters. *)
Definition isUrnSeparator (a : ascii) : bool :=
  Ascii.eqb a "_" || Ascii.eqb a ":".

Definition isDigit (a : ascii) : bool :=
  let n := nat_of_ascii a in (48 <=? n)%nat && (n <=? 57)%nat.

Definition isName (s : string) : bool :=
  truthy s && allChars (fun a => negb (isUrnSeparator a)) s.

Definition isNumericId (s : string) : bool :=
  truthy s && allChars isDigit s.

Fixpoint pathThenId (parts : list string) : bool :=
  match parts with
  | [] => false
  | [num] => isNumericId num
  | n :: rest => isName n && pathThenId rest
  end.

Definition isIdentifier (sep : ascii) (s : string) : bool :=
  match split sep s with
  | scheme :: n :: rest => String.eqb scheme "urn" && isName n && pathThenId rest
  | _ => false
  end.

Definition isCanonicalUrn (s : string) : bool := isIdentifier ":" s.

Definition isTransportUrn (s : string) : bool := isIdentifier "_" s.

(** [extractMMSIFromUrn]: the first match of
    [/urn[_:]+mrn[_:]+imo[_:]+mmsi[_:]+([0-9]+)/] in the argument, and of
    that match the digits.  Each run of separators is followed by a letter
    or a digit, which is no separator, and the digits stand last, so the
    longest run is the only one that can succeed and the search needs no
    backtracking. *)
Fixpoint dropWhile (p : ascii -> bool) (s : string) : string :=
  match s with
  | EmptyString => EmptyString
  | String a s' => if p a then dropWhile p s' else s
  end.

Fixpoint takeWhile (p : ascii -> bool) (s : string) : string :=
  match s with
  | EmptyString => EmptyString
  | String a s' => if p a then String a (takeWhile p s') else EmptyString
  end.

(** [[_:]+] at the head of [s]: what follows the run. *)
Definition separators (s : string) : option string :=
  match s with
  | String a s' => if isUrnSeparator a then Some (dropWhile isUrnSeparator s') else None
  | EmptyString => None
  end.

(** A literal followed by [[_:]+]. *)
Definition word (w s : string) : option string :=
  match stripPrefix w s with
  | Some rest => separators rest
  | None => None
  end.

(** The regular expression anchored at the head of [s]. *)
Definition mmsiMatchHere (s : string) : option string :=
  match word "urn" s with
  | None => None
  | Some s1 =>
  match word "mrn" s1 with
  | None => None
  | Some s2 =>
  match word "imo" s2 with
  | None => None
  | Some s3 =>
  match word "mmsi" s3 with
  | None => None
  | Some s4 =>
      match takeWhile isDigit s4 with
      | EmptyString => None
      | digits => Some digits
      end
  end end end end.

Fixpoint mmsiSearch (s : string) : option string :=
  match mmsiMatchHere s with
  | Some digits => Some digits
  | None =>
      match s with
      | EmptyString => None
      | String _ s' => mmsiSearch s'
      end
  end.

Definition extractMMSIFromUrn (urn : option string) : option string :=
  match urn with
  | None => None
  | Some u => if truthy u then mmsiSearch u else None
  end.

(** [parseMMSIExclusionList]: the comma-separated list of a rule, trimmed,
    without its empty items. *)
Definition parseMMSIExclusionList (excludeMMSI : string) : list string :=
  if truthy excludeMMSI
  then List.filter (fun mmsi => (0 <? String.length mmsi)%nat)
                   (List.map trim (split "," excludeMMSI))
  else [].

(** ** 3 Data model *)

(** An import rule as the management interface stores it.  A missing text
    field and an empty one behave alike everywhere ([||], [if]), so both are
    the empty string.  Rules only ever come from [JSON.parse] (rule file,
    request body, plugin options) or from [getDefaultImportRules], hence the
    field [transformValue] never holds a function and the branch of
    [sendToSignalK] that would call it is never taken: the field is left
    out. *)
Record ImportRule := {
  ruleId : string;
  ruleName : string;
  mqttTopic : string;
  signalKContext : string;
  signalKPath : string;
  sourceLabel : string;
  enabled : bool;
  payloadFormat : string;
  ignoreDuplicates : bool;
  excludeMMSI : string
}.

(** The module-level configuration a message is handled under. *)
Record Config := {
  topicPrefix : string;
  selfVesselUrn : option string;
  importRules : list ImportRule
}.

(** [selfVesselUrn] in a boolean position *)
Definition selfResolved (self : option string) : option string :=
  match self with
  | Some u => if truthy u then Some u else None
  | None => None
  end.

(** [includes(exclusionList, mmsi)] *)
Definition listIncludes (l : list string) (x : string) : bool :=
  existsb (String.eqb x) l.

(** [isMMSIExcluded]: works on the topic as received, prefix included. *)
Definition isMMSIExcluded (topic : string) (rule : ImportRule) : bool :=
  let exclusionList := parseMMSIExclusionList (excludeMMSI rule) in
  match exclusionList with
  | [] => false
  | _ =>
      match split "/" topic with
      | first :: vesselId :: _ =>
          if String.eqb first "vessels" then
            match extractMMSIFromUrn (Some vesselId) with
            | None => false
            | Some mmsi => listIncludes exclusionList mmsi
            end
          else false
      | _ => false
      end
  end.

(** ** JavaScript values *)

(** What [JSON.parse] can return.  A number is an IEEE 754 binary64 value,
    as in the language.  The fields of an object keep their order and have
    distinct names. *)
Inductive json :=
| JNull
| JBool (b : bool)
| JNum (x : float)
| JStr (s : string)
| JArr (items : list json)
| JObj (fields : list (string * json)).

Fixpoint assoc (k : string) (fields : list (string * json)) : option json :=
  match fields with
  | [] => None
  | (k', v) :: rest => if String.eqb k' k then Some v else assoc k rest
  end.

(** [v.k] for a value [v] that is not [null] and a property name [k] that
    no prototype defines ([context], [updates]): [undefined], here [None],
    unless [v] is an object with that field. *)
Definition getProp (v : json) (k : string) : option json :=
  match v with
  | JObj fields => assoc k fields
  | _ => None
  end.

(** A value in a boolean position. *)
Definition truthyValue (v : json) : bool :=
  match v with
  | JNull => false
  | JBool b => b
  | JNum x => negb (PrimFloat.eqb x 0%float || PrimFloat.is_nan x)
  | JStr s => truthy s
  | JArr _ => true
  | JObj _ => true
  end.

Definition truthyProp (o : option json) : bool :=
  match o with
  | Some v => truthyValue v
  | None => false
  end.

(** [Array.isArray] *)
Definition isArray (o : option json) : bool :=
  match o with
  | Some (JArr _) => true
  | _ => false
  end.

(** ** The runtime services the plugin calls *)

(** [new RegExp(source)] is [RegExp_new source], [None] when the constructor
    throws a [SyntaxError]; [regex.test(s)] is [RegExp_test regex s] (the
    expressions built here carry no flag, so [test] keeps no state). *)
Record RegExpEngine := {
  RegExp : Type;
  RegExp_new : string -> option RegExp;
  RegExp_test : RegExp -> string -> bool
}.

(** [JSON.parse(text)] is [JSON_parse text], [None] when it throws;
    [Number(text)] is [Number text]. *)
Record Runtime := {
  regexp : RegExpEngine;
  JSON_parse : string -> option json;
  Number : string -> float
}.

(** [Date.now()] and [new Date().toISOString()] while one message is
    handled. *)
Record Clock := {
  now : Z;
  isoString : string
}.

(** ** A regular expression engine for wildcard patterns

    The expressions [handleMQTTMessage] builds are a rule's topic pattern in
    which every [+] has become [[^/]+].  When the pattern holds no other
    character that the expression language gives a meaning to, the
    expression is a sequence of literal characters and of [[^/]+] items.
    This engine covers those expressions; for any other source [compile]
    answers [None], which here only says that the source is outside the
    fragment. *)
Module Regex.

Inductive item :=
| Lit (c : ascii)
| NotSlashPlus.

Definition regex := list item.

Definition isSyntaxCharacter (c : ascii) : bool :=
  existsb (Ascii.eqb c)
    ["\"; "^"; "$"; "."; "*"; "+"; "?"; "("; ")"; "["; "]"; "{"; "}"; "|"]%char.

(** [skip] counts the characters of the current [[^/]+] still to be passed
    over. *)
Fixpoint compileFrom (skip : nat) (source : string) : option regex :=
  match source with
  | EmptyString => Some []
  | String c source' =>
      match skip with
      | S k => compileFrom k source'
      | O =>
          match stripPrefix "[^/]+" source with
          | Some _ => option_map (cons NotSlashPlus) (compileFrom 4 source')
          | None =>
              if isSyntaxCharacter c then None
              else option_map (cons (Lit c)) (compileFrom 0 source')
          end
      end
  end.

Definition compile (source : string) : option regex := compileFrom 0 source.

(** [[^/]+] followed by [k]: one character that is no slash, after which
    either [k] takes over or the run goes on (backtracking). *)
Fixpoint notSlashPlus (k : string -> bool) (s : string) : bool :=
  match s with
  | String a s' =>
      if Ascii.eqb a "/" then false
      else k s' || notSlashPlus k s'
  | EmptyString => false
  end.

(** The expression anchored at the head of [s]. *)
Fixpoint matchHere (re : regex) (s : string) : bool :=
  match re with
  | [] => true
  | Lit c :: re' =>
      match s with
      | String a s' => Ascii.eqb a c && matchHere re' s'
      | EmptyString => false
      end
  | NotSlashPlus :: re' => notSlashPlus (matchHere re') s
  end.

(** [test]: the expression has no anchor, a match may start anywhere. *)
Fixpoint test (re : regex) (s : string) : bool :=
  matchHere re s ||
  match s with
  | String _ s' => test re s'
  | EmptyString => false
  end.

(** The engine as a [RegExpEngine].  Inside the fragment it is exact.  For
    a source outside the fragment [compile] answers [None], which a caller
    reads as a constructor that throws although the runtime may accept the
    source: every statement below that uses this engine is about a pattern
    of the fragment, given or guarded by [inFragment]. *)
Definition engine : RegExpEngine :=
  {| RegExp := regex; RegExp_new := compile; RegExp_test := test |}.

(** The expression a pattern stands for, read off the pattern itself:
    [[^/]+] for each [+], the character for any other. *)
Definition patternItem (c : ascii) : item :=
  if Ascii.eqb c "+" then NotSlashPlus else Lit c.

Definition patternItems (pattern : string) : regex :=
  List.map patternItem (list_ascii_of_string pattern).

(** The patterns of the fragment: [+] apart, no character with a meaning in
    the expression language. *)
Definition inFragment (pattern : string) : bool :=
  allChars (fun c => Ascii.eqb c "+" || negb (isSyntaxCharacter c)) pattern.

(** The texts an expression denotes. *)
Inductive denotes : regex -> string -> Prop :=
| denotes_nil : denotes [] EmptyString
| denotes_lit c re s :
    denotes re s -> denotes (Lit c :: re) (String c s)
| denotes_plus re a w s :
    Ascii.eqb a "/" = false -> freeOf "/" w = true -> denotes re s ->
    denotes (NotSlashPlus :: re) (String a (w +:+ s)).

End Regex.

(** ** 4.3 Topic pattern matcher *)

(** [pattern.replace(/\+/g, '[^/]+')] *)
Definition wildcardSource (pattern : string) : string :=
  replaceAllCharStr "+" "[^/]+" pattern.

(** [topic.replace('vessels/self/', `vessels/${urn}/`)] *)
Definition substituteSelf (pattern urn : string) : string :=
  replace pattern "vessels/self/" ("vessels/" +:+ urn +:+ "/").

(** [underscoreUrn ? pattern.replace(...) : null] *)
Definition substituteUnderscore (pattern : string) (underscoreUrn : option string) : option string :=
  match underscoreUrn with
  | Some u => if truthy u then Some (substituteSelf pattern u) else None
  | None => None
  end.

(** [pattern.includes('vessels/self/') && selfVesselUrn]: the resolved
    identifier when the test succeeds. *)
Definition selfBranch (pattern : string) (self : option string) : option string :=
  if includes pattern "vessels/self/" then selfResolved self else None.

(** The body of the rule loop of [handleMQTTMessage] that computes
    [matches] for the prefixed pattern [expectedTopic]; [None] when a
    [RegExp] constructor throws.  All expressions of a branch are built
    before the first one is tested, as in the source. *)
Definition topicMatches (re : RegExpEngine) (self : option string)
    (expectedTopic topic : string) : option bool :=
  if includes expectedTopic "#" then
    let prefix := replace expectedTopic "#" "" in
    match selfBranch prefix self with
    | Some urn =>
        let urnPrefix := substituteSelf prefix urn in
        let underscoreUrn := urnToMqttFormat (Some urn) in
        let underscorePrefix := substituteUnderscore prefix underscoreUrn in
        Some (startsWith topic prefix || startsWith topic urnPrefix ||
              match underscorePrefix with
              | Some p => truthy p && startsWith topic p
              | None => false
              end)
    | None =>
        Some (startsWith topic prefix ||
              startsWith topic (replaceAllChar "_" ":" prefix))
    end
  else if includes expectedTopic "+" then
    match selfBranch expectedTopic self with
    | Some urn =>
        let urnPattern := substituteSelf expectedTopic urn in
        let underscoreUrn := urnToMqttFormat (Some urn) in
        let underscorePattern := substituteUnderscore expectedTopic underscoreUrn in
        match RegExp_new re (wildcardSource expectedTopic) with
        | None => None
        | Some selfRegex =>
        match RegExp_new re (wildcardSource urnPattern) with
        | None => None
        | Some urnRegex =>
            match underscorePattern with
            | Some p =>
                if truthy p then
                  match RegExp_new re (wildcardSource p) with
                  | None => None
                  | Some underscoreRegex =>
                      Some (RegExp_test re selfRegex topic ||
                            RegExp_test re urnRegex topic ||
                            RegExp_test re underscoreRegex topic)
                  end
                else
                  Some (RegExp_test re selfRegex topic ||
                        RegExp_test re urnRegex topic)
            | None =>
                Some (RegExp_test re selfRegex topic ||
                      RegExp_test re urnRegex topic)
            end
        end end
    | None =>
        match RegExp_new re (wildcardSource expectedTopic) with
        | None => None
        | Some underscoreRegex =>
        match RegExp_new re (wildcardSource (replaceAllChar "_" ":" expectedTopic)) with
        | None => None
        | Some colonRegex =>
            Some (RegExp_test re underscoreRegex topic ||
                  RegExp_test re colonRegex topic)
        end end
    end
  else
    match selfBranch expectedTopic self with
    | Some urn =>
        let urnTopic := substituteSelf expectedTopic urn in
        let underscoreUrn := urnToMqttFormat (Some urn) in
        let underscoreTopic := substituteUnderscore expectedTopic underscoreUrn in
        Some (String.eqb topic expectedTopic || String.eqb topic urnTopic ||
              match underscoreTopic with
              | Some p => truthy p && String.eqb topic p
              | None => false
              end)
    | None =>
        Some (String.eqb topic expectedTopic ||
              String.eqb topic (replaceAllChar "_" ":" expectedTopic))
    end.

(** ** 4.4 Rule set *)

(** The pattern of a rule under the configured prefix. *)
Definition expectedTopicOf (prefix : string) (r : ImportRule) : string :=
  if truthy prefix then prefix +:+ "/" +:+ mqttTopic r else mqttTopic r.

(** How the [for] loop over [importRules] ends: on [return false] at a
    disabled rule, which leaves [handleMQTTMessage] itself; on an exception;
    or past the loop with [rule] set or still [null]. *)
Inductive ScanResult :=
| ScanReturned
| ScanThrew
| ScanEnded (rule : option ImportRule).

Fixpoint findRule (re : RegExpEngine) (prefix : string) (self : option string)
    (rules : list ImportRule) (topic : string) : ScanResult :=
  match rules with
  | [] => ScanEnded None
  | r :: rest =>
      if negb (enabled r) then ScanReturned
      else
        match topicMatches re self (expectedTopicOf prefix r) topic with
        | None => ScanThrew
        | Some matches =>
            if matches && isMMSIExcluded topic r then findRule re prefix self rest topic
            else if matches then ScanEnded (Some r)
            else findRule re prefix self rest topic
        end
  end.

(** The subscription side ([subscribeToMQTTTopics]) rewrites the
    transport-form identifiers of a pattern, and only them:
    [topic.replace(/urn_mrn_imo_mmsi_/g, 'urn:mrn:imo:mmsi:')]. *)
Definition canonicalUrnTopic (topic : string) : string :=
  replaceAllLit "urn_mrn_imo_mmsi_" "urn:mrn:imo:mmsi:" topic.

(** ** 4.7 Deduplication map *)

(** [lastReceivedMessages]: a [Map] from message key to the instant it was
    first seen.  A [Map] keeps its entries in insertion order and holds a
    key once; setting a key that is present keeps its place. *)
Module JsMap.

Definition t := list (string * Z).

Definition empty : t := [].

Definition has (k : string) (m : t) : bool :=
  existsb (fun e => String.eqb (fst e) k) m.

Fixpoint get (k : string) (m : t) : option Z :=
  match m with
  | [] => None
  | (k', v) :: m' => if String.eqb k' k then Some v else get k m'
  end.

Fixpoint set (k : string) (v : Z) (m : t) : t :=
  match m with
  | [] => [(k, v)]
  | (k', v') :: m' =>
      if String.eqb k' k then (k', v) :: m' else (k', v') :: set k v m'
  end.

Definition delete (k : string) (m : t) : t :=
  List.filter (fun e => negb (String.eqb (fst e) k)) m.

Definition size (m : t) : nat := length m.

(** [Array.from(m.entries())] *)
Definition entries (m : t) : list (string * Z) := m.

Definition keys (m : t) : list string := List.map fst m.

End JsMap.

(** [`${topic}:${messageStr}`] *)
Definition messageKey (topic messageStr : string) : string :=
  topic +:+ ":" +:+ messageStr.

(** [oldest.forEach(([key]) => lastReceivedMessages.delete(key))] *)
Definition deleteAll (batch : list (string * Z)) (m : JsMap.t) : JsMap.t :=
  fold_left (fun acc e => JsMap.delete (fst e) acc) batch m.

(** The clean-up that follows an insertion: above 1000 entries,
    [entries.slice(0, 500)] are deleted one by one. *)
Definition cleanupOldMessages (m : JsMap.t) : JsMap.t :=
  if (1000 <? JsMap.size m)%nat then
    let oldest := take 500 (JsMap.entries m) in
    deleteAll oldest m
  else m.

(** The duplicate check of [handleMQTTMessage] for a rule with
    [ignoreDuplicates]: [None] when the message is to be skipped, else the
    map after insertion and clean-up. *)
Definition recordMessage (key : string) (clock : Clock) (m : JsMap.t) : option JsMap.t :=
  if JsMap.has key m then None
  else Some (cleanupOldMessages (JsMap.set key (now clock) m)).

(** ** 4.6 Context and path derivation *)

(** [cleanTopic]: the topic without the first occurrence of the prefix and
    its slash. *)
Definition cleanTopicOf (prefix topic : string) : string :=
  if truthy prefix then replace topic (prefix +:+ "/") "" else topic.

(** [selfVesselUrn && (urnToMqttFormat(selfVesselUrn) === vesselId ||
    selfVesselUrn === vesselId)] *)
Definition isSelfVessel (self : option string) (vesselId : string) : bool :=
  match selfResolved self with
  | Some urn =>
      match urnToMqttFormat (Some urn) with
      | Some u => String.eqb u vesselId
      | None => false
      end || String.eqb urn vesselId
  | None => false
  end.

(** A value inside a template literal: [null] prints as the word. *)
Definition interpolate (o : option string) : string :=
  match o with
  | Some s => s
  | None => "null"
  end.

Definition extractContextFromTopic (prefix : string) (self : option string)
    (topic : string) : string :=
  let cleanTopic := cleanTopicOf prefix topic in
  match split "/" cleanTopic with
  | first :: vesselId :: _ :: _ =>
      if String.eqb first "vessels" then
        if isSelfVessel self vesselId then "vessels.self"
        else if startsWith vesselId "urn_" then
          "vessels." +:+ interpolate (mqttFormatToUrn (Some vesselId))
        else if startsWith vesselId "urn:" then "vessels." +:+ vesselId
        else "vessels." +:+ vesselId
      else "vessels.self"
  | _ => "vessels.self"
  end.

Definition extractPathFromTopic (prefix : string) (topic : string) : string :=
  let cleanTopic := cleanTopicOf prefix topic in
  match split "/" cleanTopic with
  | first :: vesselId :: ((_ :: _) as rest) =>
      if String.eqb first "vessels" then join "." rest
      else replaceAllChar "/" "." cleanTopic
  | _ => replaceAllChar "/" "." cleanTopic
  end.

(** ** 4.5 Payload interpreter *)

(** The delta both parsers build around a value. *)
Definition makeDelta (context : json) (path : string) (value : json)
    (rule : ImportRule) (clock : Clock) : json :=
  JObj [("context", context);
        ("updates", JArr [JObj [
           ("source", JObj [("label", JStr (orElse (sourceLabel rule) ""));
                            ("type", JStr "mqtt")]);
           ("timestamp", JStr (isoString clock));
           ("values", JArr [JObj [("path", JStr path); ("value", value)]])]])].

Definition parseValueOnlyMessage (rt : Runtime) (cfg : Config) (clock : Clock)
    (messageStr : string) (rule : ImportRule) (topic : string) : option json :=
  let value :=
    match JSON_parse rt messageStr with
    | Some v => v
    | None =>
        if PrimFloat.is_nan (Number rt messageStr) then JStr messageStr
        else JNum (Number rt messageStr)
    end in
  let context :=
    orElse (signalKContext rule)
           (extractContextFromTopic (topicPrefix cfg) (selfVesselUrn cfg) topic) in
  let path :=
    orElse (signalKPath rule) (extractPathFromTopic (topicPrefix cfg) topic) in
  Some (makeDelta (JStr context) path value rule clock).

(** [None] is the [null] of the [catch] clause: the text is no JSON, or it
    is the JSON [null], whose properties cannot be read. *)
Definition parseFullSignalKMessage (rt : Runtime) (cfg : Config) (clock : Clock)
    (messageStr : string) (rule : ImportRule) (topic : string) : option json :=
  match JSON_parse rt messageStr with
  | None => None
  | Some JNull => None
  | Some parsed =>
      if truthyProp (getProp parsed "context") && truthyProp (getProp parsed "updates")
      then Some parsed
      else
        let context :=
          if truthy (signalKContext rule) then JStr (signalKContext rule)
          else
            match getProp parsed "context" with
            | Some c =>
                if truthyValue c then c
                else JStr (extractContextFromTopic (topicPrefix cfg) (selfVesselUrn cfg) topic)
            | None =>
                JStr (extractContextFromTopic (topicPrefix cfg) (selfVesselUrn cfg) topic)
            end in
        let path :=
          orElse (signalKPath rule) (extractPathFromTopic (topicPrefix cfg) topic) in
        Some (makeDelta context path parsed rule clock)
  end.

(** ** 4.8 Delivery and the message handler *)

(** [sendToSignalK]: the delta handed to [app.handleMessage], or [None] when
    the function returns without calling it. *)
Definition sendToSignalK (signalKData : json) : option json :=
  match signalKData with
  | JNull => None
  | _ =>
      if negb (truthyProp (getProp signalKData "context"))
         || negb (truthyProp (getProp signalKData "updates"))
         || negb (isArray (getProp signalKData "updates"))
      then None
      else Some signalKData
  end.

(** What handling one message comes to. *)
Inductive Outcome :=
| ReturnedAtDisabledRule
| NoRule
| Duplicate
| ParseFailed
| InvalidData
| Delivered (delta : json)
| Threw.

Definition parseMessage (rt : Runtime) (cfg : Config) (clock : Clock)
    (messageStr : string) (rule : ImportRule) (topic : string) : option json :=
  if String.eqb (payloadFormat rule) "value-only"
  then parseValueOnlyMessage rt cfg clock messageStr rule topic
  else parseFullSignalKMessage rt cfg clock messageStr rule topic.

Definition deliver (signalKData : option json) : Outcome :=
  match signalKData with
  | None => ParseFailed
  | Some d =>
      match sendToSignalK d with
      | Some delta => Delivered delta
      | None => InvalidData
      end
  end.

(** [handleMQTTMessage]: the map after the message and the outcome. *)
Definition handleMQTTMessage (rt : Runtime) (cfg : Config) (clock : Clock)
    (m : JsMap.t) (topic messageStr : string) : JsMap.t * Outcome :=
  match findRule (regexp rt) (topicPrefix cfg) (selfVesselUrn cfg) (importRules cfg) topic with
  | ScanReturned => (m, ReturnedAtDisabledRule)
  | ScanThrew => (m, Threw)
  | ScanEnded None => (m, NoRule)
  | ScanEnded (Some rule) =>
      if ignoreDuplicates rule then
        match recordMessage (messageKey topic messageStr) clock m with
        | None => (m, Duplicate)
        | Some m' => (m', deliver (parseMessage rt cfg clock messageStr rule topic))
        end
      else (m, deliver (parseMessage rt cfg clock messageStr rule topic))
  end.

(** One event of a run of the plugin: a message arrives under some
    configuration (the rules may have been replaced since the last one), or
    the plugin is stopped and the map cleared. *)
Inductive Event :=
| Message (rt : Runtime) (cfg : Config) (clock : Clock) (topic messageStr : string)
| Stop.

Definition step (m : JsMap.t) (e : Event) : JsMap.t :=
  match e with
  | Message rt cfg clock topic messageStr =>
      fst (handleMQTTMessage rt cfg clock m topic messageStr)
  | Stop => JsMap.empty
  end.

(** The map after a run that starts with the empty map of the module. *)
Definition run (events : list Event) : JsMap.t :=
  fold_left step events JsMap.empty.

(** The invariant of the deduplication map between two messages: a key
    occurs once, and at most 1000 keys are held. *)
Definition mapInvariant (m : JsMap.t) : Prop :=
  NoDup (JsMap.keys m) /\ (JsMap.size m <= 1000)%nat.

(** ** The properties the specification states, in its own words *)

(** 4.4: a rule qualifies for a topic when it is enabled, its prefixed
    pattern matches the topic and its exclusion list does not hold the
    sub-identifier of the topic. *)
Definition qualifies (re : RegExpEngine) (prefix : string) (self : option string)
    (topic : string) (r : ImportRule) : bool :=
  enabled r &&
  match topicMatches re self (expectedTopicOf prefix r) topic with
  | Some matches => matches
  | None => false
  end &&
  negb (isMMSIExcluded topic r).

(** 4.4: the first rule in stored order that qualifies. *)
Definition firstQualifying (re : RegExpEngine) (prefix : string) (self : option string)
    (rules : list ImportRule) (topic : string) : option ImportRule :=
  List.find (qualifies re prefix self topic) rules.

(** 4.3, glossary: a topic matches a pattern segment by segment when both
    have as many segments and each segment of the pattern is [+] or the
    segment of the topic. *)
Fixpoint segmentsMatch (patternParts topicParts : list string) : bool :=
  match patternParts, topicParts with
  | [], [] => true
  | p :: ps, t :: ts => (String.eqb p "+" || String.eqb p t) && segmentsMatch ps ts
  | _, _ => false
  end.

Definition segmentMatch (pattern topic : string) : bool :=
  segmentsMatch (split "/" pattern) (split "/" topic).

(** 4.8: a normalized update is valid when its context is a non-empty text
    and its updates are a non-empty array. *)
Definition hasNonEmptyContext (d : json) : bool :=
  match getProp d "context" with
  | Some (JStr c) => truthy c
  | _ => false
  end.

Definition hasNonEmptyUpdates (d : json) : bool :=
  match getProp d "updates" with
  | Some (JArr (_ :: _)) => true
  | _ => false
  end.

(** 4.5: the parsed object has a [context] field and an [updates] array. *)
Definition hasField (k : string) (d : json) : bool :=
  match getProp d k with
  | Some _ => true
  | None => false
  end.

(** ** Rules, payloads and oracles of the examples *)

Definition exampleRule (ident pattern exclude : string) (on : bool) : ImportRule :=
  {| ruleId := ident; ruleName := ident; mqttTopic := pattern;
     signalKContext := ""; signalKPath := ""; sourceLabel := "";
     enabled := on; payloadFormat := "full"; ignoreDuplicates := true;
     excludeMMSI := exclude |}.

Definition exampleConfig (rules : list ImportRule) : Config :=
  {| topicPrefix := ""; selfVesselUrn := None; importRules := rules |}.

(** A text between double quotes. *)
Definition quoted (s : string) : string :=
  String "034" (s +:+ String "034" EmptyString).

(** [JSON.parse] on the finitely many texts of [table]; the examples hand
    it no other JSON text. *)
Fixpoint parseByTable (table : list (string * json)) (text : string) : option json :=
  match table with
  | [] => None
  | (t, v) :: rest => if String.eqb t text then Some v else parseByTable rest text
  end.

(** The runtime of the examples: the engine of [Regex] and [JSON.parse] by
    table.  The rules of the examples have the Full format, for which
    [Number] is never called; it is set to the answer for a text that is
    not numeric. *)
Definition exampleRuntime (table : list (string * json)) : Runtime :=
  {| regexp := Regex.engine;
     JSON_parse := parseByTable table;
     Number := fun _ => PrimFloat.nan |}.

Definition exampleClock : Clock :=
  {| now := 1700000000000; isoString := "2023-11-14T22:13:20.000Z" |}.

(** The JSON text of an object whose context is the empty text and whose
    updates are the empty array. *)
Definition emptyContextText : string :=
  "{" +:+ quoted "context" +:+ ":" +:+ quoted "" +:+ "," +:+ quoted "updates" +:+ ":[]}".

Definition emptyContextValue : json :=
  JObj [("context", JStr ""); ("updates", JArr [])].

(** The JSON text of an object whose context is [vessels.self] and whose
    updates are the empty array. *)
Definition emptyUpdatesText : string :=
  "{" +:+ quoted "context" +:+ ":" +:+ quoted "vessels.self" +:+ ","
  +:+ quoted "updates" +:+ ":[]}".

Definition emptyUpdatesValue : json :=
  JObj [("context", JStr "vessels.self"); ("updates", JArr [])].

(** Three rules with one pattern: a disabled one, one that excludes the
    sub-identifier 7, one that excludes nothing. *)
Definition disabledRule : ImportRule :=
  exampleRule "R0" "vessels/+/navigation/position" "" false.

Definition excludingRule : ImportRule :=
  exampleRule "R1" "vessels/+/navigation/position" "7" true.

Definition plainRule : ImportRule :=
  exampleRule "R2" "vessels/+/navigation/position" "" true.

(** A rule for every topic under [a/], with duplicate suppression. *)
Definition underA : ImportRule := exampleRule "A" "a/#" "" true.

(** The JSON texts [1] and [2] and their values. *)
Definition numberTable : list (string * json) :=
  [("1", JNum 1%float); ("2", JNum 2%float)].

(** The decimal numeral of [n]. *)
Definition numeral (n : nat) : string :=
  NilEmpty.string_of_uint (Nat.to_uint n).

(** [n] messages on the topic [a/b] whose payloads are the numerals 0 to
    [n - 1], all under the rule [underA]. *)
Definition burst (rt : Runtime) (clock : Clock) (n : nat) : list Event :=
  List.map (fun k => Message rt (exampleConfig [underA]) clock "a/b" (numeral k)) (seq 0 n).


(** ** Subscriptions, default rules and the earlier revision *)

(** [topics.add(x)] on a [Set]: insertion order, no second copy. *)
Definition Set_add (x : string) (topics : list string) : list string :=
  if listIncludes topics x then topics else topics ++ [x].

(** The body of the [forEach] of [subscribeToMQTTTopics] for one enabled
    rule: the topics it adds to the set. *)
Definition addSubscriptions (prefix : string) (self : option string)
    (topics : list string) (rule : ImportRule) : list string :=
  let topic := expectedTopicOf prefix rule in
  match selfBranch topic self with
  | Some urn =>
      let urnTopic := substituteSelf topic urn in
      let topics := Set_add urnTopic topics in
      if includes urn ":" then
        let underscoreUrn := urnToMqttFormat (Some urn) in
        let underscoreTopic := substituteSelf topic (interpolate underscoreUrn) in
        Set_add underscoreTopic topics
      else topics
  | None =>
      let topics := Set_add topic topics in
      if includes topic "urn_mrn_imo_mmsi_"
      then Set_add (canonicalUrnTopic topic) topics
      else topics
  end.

(** [subscribeToMQTTTopics]: the topics handed to [mqttClient.subscribe], in
    the order of the set; none when there is no connected client. *)
Definition subscribeToMQTTTopics (connected : bool) (cfg : Config) : list string :=
  if connected then
    fold_left (addSubscriptions (topicPrefix cfg) (selfVesselUrn cfg))
              (List.filter enabled (importRules cfg)) []
  else [].

(** [getDefaultImportRules] of the later revision; the last two rules have
    no [excludeMMSI] field. *)
Definition defaultRule (ident title pattern : string) (on : bool) : ImportRule :=
  {| ruleId := ident; ruleName := title; mqttTopic := pattern;
     signalKContext := ""; signalKPath := ""; sourceLabel := "";
     enabled := on; payloadFormat := "full"; ignoreDuplicates := true;
     excludeMMSI := "" |}.

Definition getDefaultImportRules : list ImportRule :=
  [defaultRule "vessels-all-data" "All Vessel Data (Auto-detect Self)"
     "vessels/urn_mrn_imo_mmsi_+/#" true;
   defaultRule "vessels-navigation" "Navigation Data (All Vessels)"
     "vessels/urn_mrn_imo_mmsi_+/navigation/#" true;
   defaultRule "vessels-environment" "Environment Data (All Vessels)"
     "vessels/urn_mrn_imo_mmsi_+/environment/#" true;
   defaultRule "vessels-electrical" "Electrical Data (All Vessels)"
     "vessels/urn_mrn_imo_mmsi_+/electrical/#" false;
   defaultRule "vessels-propulsion" "Propulsion Data (All Vessels)"
     "vessels/urn_mrn_imo_mmsi_+/propulsion/#" false].

(** The matcher of the earlier revision of [handleMQTTMessage], the callback
    of [importRules.find]: no identifier flexibility, no self placeholder. *)
Definition topicMatchesV1 (re : RegExpEngine) (expectedTopic topic : string) : option bool :=
  if includes expectedTopic "#" then
    let prefix := replace expectedTopic "#" "" in
    Some (startsWith topic prefix)
  else if includes expectedTopic "+" then
    match RegExp_new re (wildcardSource expectedTopic) with
    | None => None
    | Some regex => Some (RegExp_test re regex topic)
    end
  else Some (String.eqb topic expectedTopic).

(** [importRules.find(...)] of the earlier revision: [return false] inside
    the callback goes on to the next rule. *)
Fixpoint findRuleV1 (re : RegExpEngine) (prefix : string)
    (rules : list ImportRule) (topic : string) : ScanResult :=
  match rules with
  | [] => ScanEnded None
  | r :: rest =>
      if negb (enabled r) then findRuleV1 re prefix rest topic
      else
        match topicMatchesV1 re (expectedTopicOf prefix r) topic with
        | None => ScanThrew
        | Some true => ScanEnded (Some r)
        | Some false => findRuleV1 re prefix rest topic
        end
  end.

(** A pattern in which the [+] signs, from left to right, are replaced by
    the texts of [levels]; a [+] for which no text is left stays. *)
Fixpoint instantiate (pattern : string) (levels : list string) : string :=
  match pattern with
  | EmptyString => EmptyString
  | String c pattern' =>
      if Ascii.eqb c "+" then
        match levels with
        | level :: levels' => level +:+ instantiate pattern' levels'
        | [] => String c (instantiate pattern' [])
        end
      else String c (instantiate pattern' levels)
  end.

(** A non-empty text without slash: what one topic level holds. *)
Definition isLevel (s : string) : bool := truthy s && freeOf "/" s.

(** * Properties *)

(** ** Strings *)

Section StringFacts.

Implicit Types (a c d : ascii) (s t p : string).

Lemma stripPrefix_spec p s rest :
  stripPrefix p s = Some rest <-> s = p +:+ rest.
Proof.
  revert s; induction p as [|a p IH]; intros s; simpl.
  - split; [intros [= ->]; reflexivity | intros ->; reflexivity].
  - destruct s as [|b s]; [split; discriminate|].
    destruct (Ascii.eqb_spec a b) as [->|Hne].
    + rewrite IH. split; [intros ->; reflexivity | intros [= ->]; reflexivity].
    + split; [discriminate | intros [= -> _]; contradiction].
Qed.

Lemma stripPrefix_self p : stripPrefix p p = Some EmptyString.
Proof.
  induction p as [|a p IH]; simpl; [reflexivity|].
  rewrite Ascii.eqb_refl. exact IH.
Qed.

Lemma startsWith_spec s p :
  startsWith s p = true <-> exists rest, s = p +:+ rest.
Proof.
  unfold startsWith. destruct (stripPrefix p s) as [rest|] eqn:E.
  - apply stripPrefix_spec in E. split; [eauto | reflexivity].
  - split; [discriminate|]. intros [rest Hrest].
    apply stripPrefix_spec in Hrest. congruence.
Qed.

Lemma allChars_app q s t :
  allChars q (s +:+ t) = allChars q s && allChars q t.
Proof.
  induction s as [|a s IH]; simpl; [reflexivity|].
  rewrite IH. apply andb_assoc.
Qed.

(** Replacing a character that does not occur changes nothing. *)
Lemma replaceAllChar_absent c d s :
  allChars (fun a => negb (Ascii.eqb a c)) s = true -> replaceAllChar c d s = s.
Proof.
  induction s as [|a s IH]; simpl; [reflexivity|].
  intros [Ha Hs]%andb_prop. rewrite (IH Hs).
  destruct (Ascii.eqb a c); [discriminate | reflexivity].
Qed.

(** Sending [c] to [d] and [d] back to [c] restores a text without [d], and
    only such a text. *)
Lemma replaceAllChar_round_trip c d s :
  c <> d ->
  replaceAllChar d c (replaceAllChar c d s) = s <->
  allChars (fun a => negb (Ascii.eqb a d)) s = true.
Proof.
  intros Hcd. induction s as [|a s IH]; simpl; [tauto|].
  destruct (Ascii.eqb_spec a c) as [->|Hac].
  - rewrite Ascii.eqb_refl.
    destruct (Ascii.eqb_spec c d) as [?|_]; [contradiction|]. simpl.
    rewrite <- IH. split; [intros [= ?]; assumption | intros ->; reflexivity].
  - destruct (Ascii.eqb_spec a d) as [->|Had]; simpl.
    + split; [intros [= ? _]; congruence | discriminate].
    + rewrite <- IH. split; [intros [= ?]; assumption | intros ->; reflexivity].
Qed.

Lemma replaceAllChar_truthy c d s :
  truthy (replaceAllChar c d s) = truthy s.
Proof. destruct s; reflexivity. Qed.

Lemma split_nonempty c s : split c s <> [].
Proof.
  destruct s as [|a s]; simpl; [discriminate|].
  destruct (Ascii.eqb a c); [discriminate|].
  destruct (split c s); discriminate.
Qed.

(** The segments of a text hold every character of it but the separator. *)
Lemma allChars_split q c s :
  q c = true ->
  allChars q s = forallb (allChars q) (split c s).
Proof.
  intros Hq. induction s as [|a s IH]; simpl; [reflexivity|].
  destruct (Ascii.eqb_spec a c) as [->|Hne].
  - simpl. rewrite Hq. exact IH.
  - destruct (split c s) as [|seg segs] eqn:E; simpl in *.
    + exfalso. exact (split_nonempty c s E).
    + rewrite IH. apply andb_assoc.
Qed.

End StringFacts.

(** ** 4.1 Identifier codec *)

Lemma isDigit_not_separator a : isDigit a = true -> isUrnSeparator a = false.
Proof.
  unfold isDigit, isUrnSeparator. intros H.
  destruct (Ascii.eqb_spec a "_") as [->|_]; [discriminate H|].
  destruct (Ascii.eqb_spec a ":") as [->|_]; [discriminate H|]. reflexivity.
Qed.

Lemma allChars_impl (q q' : ascii -> bool) s :
  (forall a, q a = true -> q' a = true) ->
  allChars q s = true -> allChars q' s = true.
Proof.
  intros Hq. induction s as [|a s IH]; simpl; [reflexivity|].
  intros [Ha Hs]%andb_prop. rewrite (Hq a Ha), (IH Hs). reflexivity.
Qed.

Lemma pathThenId_no_separator parts :
  pathThenId parts = true ->
  forallb (allChars (fun a => negb (isUrnSeparator a))) parts = true.
Proof.
  induction parts as [|n rest IH]; simpl; [discriminate|].
  destruct rest as [|n' rest'].
  - unfold isNumericId. intros [_ Hd]%andb_prop. rewrite andb_true_r.
    revert Hd. apply allChars_impl. intros a Ha.
    rewrite (isDigit_not_separator a Ha). reflexivity.
  - unfold isName at 1. intros [[_ Hn]%andb_prop Hrest]%andb_prop.
    rewrite Hn. exact (IH Hrest).
Qed.

(** An identifier in the encoding delimited by [sep] holds no other
    delimiter than [sep]. *)
Lemma isIdentifier_delimiters sep other s :
  isUrnSeparator other = true -> other <> sep ->
  isIdentifier sep s = true ->
  truthy s = true /\ allChars (fun a => negb (Ascii.eqb a other)) s = true.
Proof.
  intros Hother Hne. unfold isIdentifier.
  destruct (split sep s) as [|scheme [|n rest]] eqn:E; try discriminate.
  intros [[Hscheme Hn]%andb_prop Hrest]%andb_prop.
  split.
  - destruct s; [discriminate E | reflexivity].
  - rewrite (allChars_split _ sep s), E.
    2:{ destruct (Ascii.eqb_spec sep other); [congruence | reflexivity]. }
    assert (Hsub : forall t, allChars (fun a => negb (isUrnSeparator a)) t = true ->
                             allChars (fun a => negb (Ascii.eqb a other)) t = true).
    { intros t. apply allChars_impl. intros a Ha.
      destruct (Ascii.eqb_spec a other) as [->|_]; [|reflexivity].
      rewrite Hother in Ha. discriminate Ha. }
    apply String.eqb_eq in Hscheme. subst scheme.
    unfold isName in Hn. apply andb_prop in Hn as [_ Hn].
    apply pathThenId_no_separator in Hrest.
    cbn [forallb]. rewrite (Hsub "urn" eq_refl), (Hsub n Hn). simpl.
    rewrite forallb_forall in *. intros t Ht. apply Hsub, Hrest, Ht.
Qed.

(** C3.  For every identifier of the canonical shape
    [urn:<namespace-path>:<numeric-id>], decoding after encoding gives the
    identifier back, [mqttFormatToUrn (urnToMqttFormat i) = i]; and for
    every identifier of the same shape in transport form, encoding after
    decoding gives it back. *)
Theorem codec_round_trip s :
  (isCanonicalUrn s = true ->
     mqttFormatToUrn (urnToMqttFormat (Some s)) = Some s) /\
  (isTransportUrn s = true ->
     urnToMqttFormat (mqttFormatToUrn (Some s)) = Some s).
Proof.
  split; intros H.
  - apply (isIdentifier_delimiters ":" "_") in H as [Ht Hs]; [|reflexivity|discriminate].
    unfold urnToMqttFormat, mqttFormatToUrn.
    rewrite Ht, replaceAllChar_truthy, Ht. f_equal.
    apply replaceAllChar_round_trip; [discriminate | exact Hs].
  - apply (isIdentifier_delimiters "_" ":") in H as [Ht Hs]; [|reflexivity|discriminate].
    unfold urnToMqttFormat, mqttFormatToUrn.
    rewrite Ht, replaceAllChar_truthy, Ht. f_equal.
    apply replaceAllChar_round_trip; [discriminate | exact Hs].
Qed.

Lemma codec_round_trip_witness :
  (isCanonicalUrn "urn:mrn:imo:mmsi:368396230" = true /\
   mqttFormatToUrn (urnToMqttFormat (Some "urn:mrn:imo:mmsi:368396230"))
   = Some "urn:mrn:imo:mmsi:368396230") /\
  (isTransportUrn "urn_mrn_imo_mmsi_368396230" = true /\
   urnToMqttFormat (mqttFormatToUrn (Some "urn_mrn_imo_mmsi_368396230"))
   = Some "urn_mrn_imo_mmsi_368396230").
Proof.
  split; (split; [reflexivity|]).
  - apply (proj1 (codec_round_trip "urn:mrn:imo:mmsi:368396230")). reflexivity.
  - apply (proj2 (codec_round_trip "urn_mrn_imo_mmsi_368396230")). reflexivity.
Defined.

(** X21.  Where the round trip stops: a text comes back from the transport
    form exactly when it holds no underscore of its own. *)
Lemma decode_encode_iff s :
  truthy s = true ->
  (mqttFormatToUrn (urnToMqttFormat (Some s)) = Some s <->
   allChars (fun a => negb (Ascii.eqb a "_")) s = true).
Proof.
  intros Ht. unfold urnToMqttFormat, mqttFormatToUrn.
  rewrite Ht, replaceAllChar_truthy, Ht.
  rewrite <- (replaceAllChar_round_trip ":" "_" s) by discriminate.
  split; [intros [= ?]; assumption | intros ->; reflexivity].
Qed.

(** ** 4.6 Context and path derivation *)

Section SplitJoin.

Variable c : ascii.

Lemma split_free s : freeOf c s = true -> split c s = [s].
Proof.
  induction s as [|a s IH]; simpl; [reflexivity|].
  intros [Ha Hs]%andb_prop.
  destruct (Ascii.eqb a c); [discriminate Ha|].
  rewrite (IH Hs). reflexivity.
Qed.

Lemma split_app_separator s t :
  freeOf c s = true -> split c (s +:+ String c t) = s :: split c t.
Proof.
  induction s as [|a s IH]; simpl.
  - intros _. rewrite Ascii.eqb_refl. reflexivity.
  - intros [Ha Hs]%andb_prop.
    destruct (Ascii.eqb a c); [discriminate Ha|].
    rewrite (IH Hs). reflexivity.
Qed.

(** Splitting what [join] built from separator-free segments gives the
    segments back. *)
Lemma split_join parts :
  parts <> [] -> forallb (freeOf c) parts = true ->
  split c (join (String c EmptyString) parts) = parts.
Proof.
  induction parts as [|p rest IH]; [congruence|].
  intros _ [Hp Hrest]%andb_prop.
  destruct rest as [|q rest'].
  - simpl. apply split_free, Hp.
  - change (join (String c EmptyString) (p :: q :: rest'))
      with (p +:+ String c (join (String c EmptyString) (q :: rest'))).
    rewrite (split_app_separator _ _ Hp), IH; [reflexivity | discriminate | exact Hrest].
Qed.

End SplitJoin.

(** The token denotes this vessel when the self identifier is resolved and
    the token is one of its two encodings. *)
Lemma isSelfVessel_spec self token :
  isSelfVessel self token = true <->
  exists urn, self = Some urn /\ truthy urn = true /\
              (token = replaceAllChar ":" "_" urn \/ token = urn).
Proof.
  unfold isSelfVessel, selfResolved, urnToMqttFormat.
  destruct self as [urn|]; [|split; [discriminate | intros (? & [=] & _)]].
  destruct (truthy urn) eqn:Ht; [|split; [discriminate|intros (? & [= <-] & ? & _); congruence]].
  rewrite Ht, orb_true_iff, !String.eqb_eq. split.
  - intros H. exists urn. intuition congruence.
  - intros (u & [= <-] & _ & H). intuition congruence.
Qed.

(** C4.  A topic [vessels/<token>/<rest...>] with at least three segments,
    handled without a configured prefix: the path is the segments after the
    token joined by dots; the context is [vessels.self] when the token is
    the resolved self identifier in either encoding, and otherwise, when the
    token starts with [urn_], it is [vessels.] followed by the token with
    its underscores turned into colons.  The two topics of the
    specification come out as it says. *)
Theorem context_path_derivation :
  (forall (self : option string) (token : string) (rest : list string),
     freeOf "/" token = true -> forallb (freeOf "/") rest = true -> rest <> [] ->
     let topic := join "/" ("vessels" :: token :: rest) in
     extractPathFromTopic "" topic = join "." rest /\
     (isSelfVessel self token = true ->
        extractContextFromTopic "" self topic = "vessels.self") /\
     (isSelfVessel self token = false -> startsWith token "urn_" = true ->
        extractContextFromTopic "" self topic
        = "vessels." +:+ replaceAllChar "_" ":" token)) /\
  (extractContextFromTopic "" (Some "urn:mrn:imo:mmsi:368396230")
     "vessels/urn_mrn_imo_mmsi_368396230/navigation/position" = "vessels.self" /\
   extractPathFromTopic ""
     "vessels/urn_mrn_imo_mmsi_368396230/navigation/position" = "navigation.position") /\
  (extractContextFromTopic "" (Some "urn:mrn:imo:mmsi:999999999")
     "vessels/urn_mrn_imo_mmsi_368396230/navigation/position"
   = "vessels.urn:mrn:imo:mmsi:368396230" /\
   extractPathFromTopic ""
     "vessels/urn_mrn_imo_mmsi_368396230/navigation/position" = "navigation.position").
Proof.
  split; [|split; split; reflexivity].
  intros self token rest Htoken Hrest Hne topic.
  assert (Hsplit : split "/" topic = "vessels" :: token :: rest).
  { apply (split_join "/"); [discriminate|].
    cbn [forallb]. rewrite Htoken, Hrest. reflexivity. }
  unfold extractPathFromTopic, extractContextFromTopic, cleanTopicOf.
  cbn [truthy]. rewrite Hsplit.
  destruct rest as [|r rest']; [congruence|].
  change (String.eqb "vessels" "vessels") with true. cbv iota.
  split; [reflexivity|]. split.
  - intros ->. reflexivity.
  - intros -> Hurn. rewrite Hurn. unfold mqttFormatToUrn.
    destruct token as [|a token']; [discriminate Hurn|]. reflexivity.
Qed.

Lemma context_path_derivation_witness :
  let token := "urn_mrn_imo_mmsi_368396230" in
  let rest := ["navigation"; "position"] in
  let topic := join "/" ("vessels" :: token :: rest) in
  extractPathFromTopic "" topic = join "." rest /\
  extractContextFromTopic "" (Some "urn:mrn:imo:mmsi:368396230") topic = "vessels.self" /\
  extractContextFromTopic "" (Some "urn:mrn:imo:mmsi:999999999") topic
  = "vessels." +:+ replaceAllChar "_" ":" token.
Proof.
  intros token rest topic.
  pose proof (proj1 context_path_derivation) as H.
  destruct (H (Some "urn:mrn:imo:mmsi:368396230") token rest eq_refl eq_refl
              ltac:(discriminate)) as (Hpath & Hself & _).
  destruct (H (Some "urn:mrn:imo:mmsi:999999999") token rest eq_refl eq_refl
              ltac:(discriminate)) as (_ & _ & Hother).
  split; [exact Hpath|]. split; [exact (Hself eq_refl) | exact (Hother eq_refl eq_refl)].
Defined.

(** ** 4.3 Topic pattern matcher *)

(** Without wildcard and without [vessels/self/] the matcher compares the
    topic with the pattern and with the pattern whose underscores are all
    colons; it builds no regular expression. *)
Lemma topicMatches_exact re self p t :
  includes p "#" = false -> includes p "+" = false ->
  selfBranch p self = None ->
  topicMatches re self p t
  = Some (String.eqb t p || String.eqb t (replaceAllChar "_" ":" p)).
Proof.
  intros Hhash Hplus Hself. unfold topicMatches.
  rewrite Hhash, Hplus, Hself. reflexivity.
Qed.

(** What the matcher computes for a pattern with neither [+] nor [#] nor
    [vessels/self/]: it accepts a topic exactly when the topic is the
    pattern or the pattern with every underscore replaced by a colon,
    whether the underscore belongs to an identifier or not. *)
Theorem exact_match_iff re self p t :
  includes p "+" = false -> includes p "#" = false ->
  includes p "vessels/self/" = false ->
  topicMatches re self p t = Some true <->
  t = p \/ t = replaceAllChar "_" ":" p.
Proof.
  intros Hplus Hhash Hself.
  rewrite topicMatches_exact; [|assumption|assumption|unfold selfBranch; rewrite Hself; reflexivity].
  rewrite <- !String.eqb_eq, <- orb_true_iff.
  split; [intros [= ->]; reflexivity | intros ->; reflexivity].
Qed.

Lemma exact_match_iff_witness :
  topicMatches Regex.engine None "vessels/urn_mrn_imo_mmsi_1/a" "vessels/urn:mrn:imo:mmsi:1/a"
  = Some true.
Proof.
  apply (exact_match_iff Regex.engine None); [reflexivity..|].
  right. reflexivity.
Defined.

(** The blanket rewrite against the rewrite of identifiers alone, both
    ways: the pattern [a_b] holds no identifier, yet the topic [a:b] is
    accepted; and a pattern with an identifier and another underscore does
    not accept the topic in which the identifier alone is canonical. *)
Lemma exact_match_counterexample :
  (let p := "a_b" in
   let t := "a:b" in
   includes p "+" = false /\ includes p "#" = false /\
   includes p "vessels/self/" = false /\
   topicMatches Regex.engine None p t = Some true /\
   ~ (t = p \/ t = canonicalUrnTopic p)) /\
  (let p := "vessels/urn_mrn_imo_mmsi_123/my_sensor" in
   let t := "vessels/urn:mrn:imo:mmsi:123/my_sensor" in
   includes p "+" = false /\ includes p "#" = false /\
   includes p "vessels/self/" = false /\
   topicMatches Regex.engine None p t = Some false /\
   t = canonicalUrnTopic p).
Proof.
  split; cbv zeta; repeat split; try reflexivity.
  intros [H|H]; discriminate H.
Qed.

(** C5.  A topic is to match a pattern without wildcard when it is the
    pattern or the pattern with its transport-form identifiers rewritten to
    canonical form.  For the pattern [vessels/urn_mrn_imo_mmsi_123/my_sensor]
    that rewrite is [vessels/urn:mrn:imo:mmsi:123/my_sensor], and
    [subscribeToMQTTTopics] does subscribe to it; but the matcher compares
    with the pattern in which every underscore is a colon, rejects the
    topic, and [handleMQTTMessage] finds no rule for a message on it. *)
Theorem identifier_rewrite_is_not_matched :
  let rule := exampleRule "U" "vessels/urn_mrn_imo_mmsi_123/my_sensor" "" true in
  let cfg := exampleConfig [rule] in
  let topic := "vessels/urn:mrn:imo:mmsi:123/my_sensor" in
  includes (mqttTopic rule) "+" = false /\ includes (mqttTopic rule) "#" = false /\
  includes (mqttTopic rule) "vessels/self/" = false /\
  topic = canonicalUrnTopic (mqttTopic rule) /\
  subscribeToMQTTTopics true cfg = [mqttTopic rule; topic] /\
  topicMatches Regex.engine None (mqttTopic rule) topic = Some false /\
  forall table clock m messageStr,
    handleMQTTMessage (exampleRuntime table) cfg clock m topic messageStr = (m, NoRule).
Proof. cbv zeta. repeat split. Qed.

(** ** 4.4 Rule set *)

Section RuleScan.

Variables (re : RegExpEngine) (prefix : string) (self : option string) (topic : string).

(** X23.  While every rule met is enabled and no expression fails to
    compile, the loop finds the first qualifying rule. *)
Lemma findRule_enabled rules :
  forallb enabled rules = true ->
  (forall r, In r rules -> topicMatches re self (expectedTopicOf prefix r) topic <> None) ->
  findRule re prefix self rules topic
  = ScanEnded (firstQualifying re prefix self rules topic).
Proof.
  unfold firstQualifying.
  induction rules as [|r rest IH]; [reflexivity|].
  cbn [forallb]. intros [Hr Hrest]%andb_prop Hcompile.
  cbn [findRule List.find]. unfold qualifies at 1. rewrite Hr. cbn [negb andb].
  destruct (topicMatches re self (expectedTopicOf prefix r) topic) as [matches|] eqn:E.
  2:{ exfalso. apply (Hcompile r); [left; reflexivity | exact E]. }
  assert (IH' := IH Hrest (fun r' H' => Hcompile r' (or_intror H'))).
  destruct matches, (isMMSIExcluded topic r); cbn [andb negb]; auto.
Qed.

(** A disabled rule ends the scan, and the handling of the message with it,
    whatever follows in the list. *)
Lemma findRule_disabled before r after :
  forallb enabled before = true ->
  (forall r', In r' before -> qualifies re prefix self topic r' = false) ->
  (forall r', In r' before -> topicMatches re self (expectedTopicOf prefix r') topic <> None) ->
  enabled r = false ->
  findRule re prefix self (before ++ r :: after) topic = ScanReturned.
Proof.
  intros Hen Hq Hc Hr.
  induction before as [|b before IH]; cbn [app findRule].
  - rewrite Hr. reflexivity.
  - cbn [forallb] in Hen. apply andb_prop in Hen as [Hb Hen].
    rewrite Hb. cbn [negb].
    assert (Hqb := Hq b (or_introl eq_refl)). unfold qualifies in Hqb.
    rewrite Hb in Hqb. cbn [andb] in Hqb.
    destruct (topicMatches re self (expectedTopicOf prefix b) topic) as [matches|] eqn:E.
    2:{ exfalso. apply (Hc b); [left; reflexivity | exact E]. }
    assert (IH' := IH Hen (fun r' H' => Hq r' (or_intror H'))
                      (fun r' H' => Hc r' (or_intror H'))).
    destruct matches, (isMMSIExcluded topic b); cbn [andb negb] in *;
      try discriminate; exact IH'.
Qed.

End RuleScan.

(** The sub-identifier of a vessel token in transport form is its numeric
    part. *)
Lemma takeWhile_digits d :
  allChars isDigit d = true -> takeWhile isDigit d = d.
Proof.
  induction d as [|a d IH]; simpl; [reflexivity|].
  intros [Ha Hd]%andb_prop. rewrite Ha, (IH Hd). reflexivity.
Qed.

Lemma extractMMSI_transport d :
  isNumericId d = true ->
  extractMMSIFromUrn (Some ("urn_mrn_imo_mmsi_" +:+ d)) = Some d.
Proof.
  unfold isNumericId. intros [Ht Hd]%andb_prop.
  change (extractMMSIFromUrn (Some ("urn_mrn_imo_mmsi_" +:+ d)))
    with (mmsiSearch ("urn_mrn_imo_mmsi_" +:+ d)).
  assert (Hhere : mmsiMatchHere ("urn_mrn_imo_mmsi_" +:+ d) = Some d).
  { destruct d as [|a d]; [discriminate Ht|].
    cbn [allChars] in Hd. apply andb_prop in Hd as [Ha Hd].
    cbv beta iota delta [append].
    unfold mmsiMatchHere, word, separators. cbn.
    rewrite (isDigit_not_separator a Ha).
    cbn [takeWhile]. rewrite Ha, (takeWhile_digits d Hd). reflexivity. }
  change ("urn_mrn_imo_mmsi_" +:+ d) with (String "u" ("rn_mrn_imo_mmsi_" +:+ d)) in *.
  cbn [mmsiSearch]. rewrite Hhere. reflexivity.
Qed.

(** X22.  A rule with a non-empty exclusion list excludes the topic of a
    vessel in transport form exactly when the list holds the numeric part
    of the vessel token. *)
Lemma isMMSIExcluded_transport d rest rule :
  isNumericId d = true ->
  parseMMSIExclusionList (excludeMMSI rule) <> [] ->
  isMMSIExcluded ("vessels/urn_mrn_imo_mmsi_" +:+ d +:+ String "/" rest) rule
  = listIncludes (parseMMSIExclusionList (excludeMMSI rule)) d.
Proof.
  intros Hd Hlist. unfold isMMSIExcluded.
  destruct (parseMMSIExclusionList (excludeMMSI rule)) as [|x l] eqn:E; [congruence|].
  assert (Hsplit : split "/" ("vessels/urn_mrn_imo_mmsi_" +:+ d +:+ String "/" rest)
                   = "vessels" :: ("urn_mrn_imo_mmsi_" +:+ d) :: split "/" rest).
  { change ("vessels/urn_mrn_imo_mmsi_" +:+ d +:+ String "/" rest)
      with ("vessels" +:+ String "/" (("urn_mrn_imo_mmsi_" +:+ d) +:+ String "/" rest)).
    rewrite (split_app_separator "/" "vessels") by reflexivity.
    rewrite split_app_separator; [reflexivity|].
    unfold freeOf. unfold isNumericId in Hd. apply andb_prop in Hd as [_ Hd].
    change (allChars (fun a => negb (Ascii.eqb a "/")) ("urn_mrn_imo_mmsi_" +:+ d))
      with (allChars (fun a => negb (Ascii.eqb a "/")) d).
    revert Hd. apply allChars_impl. intros a Ha.
    destruct (Ascii.eqb_spec a "/") as [->|_]; [discriminate Ha | reflexivity]. }
  rewrite Hsplit. change (String.eqb "vessels" "vessels") with true. cbv iota.
  rewrite (extractMMSI_transport d Hd). reflexivity.
Qed.

(** The example of the specification: the first rule excludes 7, the second
    has the same pattern and excludes nothing. *)
Lemma exclusion_example :
  findRule Regex.engine "" None [excludingRule; plainRule]
    "vessels/urn_mrn_imo_mmsi_7/navigation/position" = ScanEnded (Some plainRule) /\
  findRule Regex.engine "" None [excludingRule; plainRule]
    "vessels/urn_mrn_imo_mmsi_8/navigation/position" = ScanEnded (Some excludingRule).
Proof. split; reflexivity. Qed.

(** C1.  The search is to skip a disabled rule and go on to later rules.
    With a disabled rule stored before an enabled rule that matches the
    topic and excludes nothing, the first qualifying rule is the enabled
    one, but the loop of [handleMQTTMessage] leaves the function at the
    disabled rule: no rule is found and the message is not handled. *)
Theorem disabled_rule_ends_search :
  let rules := [disabledRule; plainRule] in
  let topic := "vessels/urn_mrn_imo_mmsi_8/navigation/position" in
  firstQualifying Regex.engine "" None rules topic = Some plainRule /\
  findRule Regex.engine "" None [plainRule] topic = ScanEnded (Some plainRule) /\
  findRule Regex.engine "" None rules topic = ScanReturned /\
  forall table clock m messageStr,
    handleMQTTMessage (exampleRuntime table) (exampleConfig rules) clock m topic messageStr
    = (m, ReturnedAtDisabledRule).
Proof. cbv zeta. repeat split. Qed.

(** ** 4.7 Deduplication map *)

Section DedupMap.

Implicit Types (k key : string) (v : Z) (m : JsMap.t).

Lemma has_true_iff k m : JsMap.has k m = true <-> In k (JsMap.keys m).
Proof.
  unfold JsMap.has, JsMap.keys. rewrite existsb_exists, in_map_iff. split.
  - intros (e & He & Hk). apply String.eqb_eq in Hk. eauto.
  - intros (e & Hk & He). exists e. split; [exact He|]. apply String.eqb_eq, Hk.
Qed.

Lemma has_false_iff k m : JsMap.has k m = false <-> ~ In k (JsMap.keys m).
Proof. rewrite <- has_true_iff. destruct (JsMap.has k m); split; congruence. Qed.

Lemma has_get k m : JsMap.has k m = true <-> JsMap.get k m <> None.
Proof.
  induction m as [|[k' v'] m IH]; simpl; [split; congruence|].
  destruct (String.eqb k' k); simpl; [split; congruence | exact IH].
Qed.

(** Setting a key the map does not hold puts it last. *)
Lemma set_absent k v m : JsMap.has k m = false -> JsMap.set k v m = m ++ [(k, v)].
Proof.
  induction m as [|[k' v'] m IH]; simpl; [reflexivity|].
  destruct (String.eqb k' k); simpl; [discriminate|].
  intros H. rewrite (IH H). reflexivity.
Qed.

Lemma get_last k v m : JsMap.has k m = false -> JsMap.get k (m ++ [(k, v)]) = Some v.
Proof.
  induction m as [|[k' v'] m IH]; simpl.
  - rewrite String.eqb_refl. reflexivity.
  - destruct (String.eqb k' k); simpl; [discriminate | exact IH].
Qed.

Lemma get_delete_other k k' m : k' <> k -> JsMap.get k (JsMap.delete k' m) = JsMap.get k m.
Proof.
  intros Hne. induction m as [|[k0 v0] m IH]; simpl; [reflexivity|].
  destruct (String.eqb_spec k0 k') as [->|H0]; simpl.
  - destruct (String.eqb_spec k' k); [contradiction | exact IH].
  - rewrite IH. reflexivity.
Qed.

Lemma has_delete k k' m : JsMap.has k (JsMap.delete k' m) = true -> JsMap.has k m = true.
Proof.
  rewrite !has_true_iff. unfold JsMap.keys, JsMap.delete.
  rewrite !in_map_iff. intros (e & He & Hin). apply filter_In in Hin as [Hin _]. eauto.
Qed.

Lemma delete_absent k m : JsMap.has k m = false -> JsMap.delete k m = m.
Proof.
  induction m as [|[k' v'] m IH]; simpl; [reflexivity|].
  destruct (String.eqb k' k); simpl; [discriminate|].
  intros H. rewrite (IH H). reflexivity.
Qed.

Lemma get_deleteAll k batch m :
  ~ In k (map fst batch) -> JsMap.get k (deleteAll batch m) = JsMap.get k m.
Proof.
  unfold deleteAll. revert m.
  induction batch as [|e batch IH]; intros m Hk; simpl; [reflexivity|].
  rewrite IH; [|intros H; apply Hk; right; exact H].
  apply get_delete_other. intros Heq. apply Hk. left. exact Heq.
Qed.

Lemma has_deleteAll k batch m :
  JsMap.has k (deleteAll batch m) = true -> JsMap.has k m = true.
Proof.
  unfold deleteAll. revert m.
  induction batch as [|e batch IH]; intros m; simpl; [tauto|].
  intros H. apply IH in H. exact (has_delete _ _ _ H).
Qed.

(** On a map without repeated key, deleting the keys of the first [n]
    entries removes those entries and no other. *)
Lemma deleteAll_take n m :
  NoDup (JsMap.keys m) -> deleteAll (take n m) m = drop n m.
Proof.
  unfold deleteAll. revert n.
  induction m as [|[k v] m IH]; intros n Hnd.
  - destruct n; reflexivity.
  - destruct n as [|n]; [reflexivity|].
    cbn [take firstn drop skipn fold_left fst JsMap.delete List.filter].
    rewrite String.eqb_refl. cbn [negb].
    cbn [JsMap.keys map fst] in Hnd. apply NoDup_cons in Hnd as [Hk Hnd].
    change (List.filter (fun e => negb (String.eqb (fst e) k)) m) with (JsMap.delete k m).
    rewrite delete_absent by (apply has_false_iff; rewrite <- list_elem_of_In; exact Hk).
    apply IH, Hnd.
Qed.

Lemma cleanup_small m :
  (JsMap.size m <= 1000)%nat -> cleanupOldMessages m = m.
Proof.
  intros H. unfold cleanupOldMessages.
  destruct (Nat.ltb_spec 1000 (JsMap.size m)); [lia | reflexivity].
Qed.

Lemma cleanup_large m :
  NoDup (JsMap.keys m) -> (1000 < JsMap.size m)%nat ->
  cleanupOldMessages m = drop 500 m.
Proof.
  intros Hnd H. unfold cleanupOldMessages, JsMap.entries.
  destruct (Nat.ltb_spec 1000 (JsMap.size m)); [|lia].
  apply deleteAll_take, Hnd.
Qed.

Lemma has_cleanup k m :
  JsMap.has k (cleanupOldMessages m) = true -> JsMap.has k m = true.
Proof.
  unfold cleanupOldMessages. destruct (1000 <? JsMap.size m)%nat; [|tauto].
  apply has_deleteAll.
Qed.

(** What was just inserted survives the clean-up. *)
Lemma get_cleanup_inserted k v m :
  JsMap.has k m = false ->
  JsMap.get k (cleanupOldMessages (JsMap.set k v m)) = Some v.
Proof.
  intros Hk. rewrite (set_absent _ _ _ Hk). unfold cleanupOldMessages, JsMap.entries.
  destruct (Nat.ltb_spec 1000 (JsMap.size (m ++ [(k, v)]))) as [Hbig|_].
  - rewrite get_deleteAll; [apply get_last, Hk|].
    unfold JsMap.size in Hbig. rewrite length_app in Hbig. simpl in Hbig.
    rewrite take_app_le by lia.
    intros Hin. apply has_false_iff in Hk. apply Hk.
    unfold JsMap.keys. apply in_map_iff in Hin as (e & He & Hin).
    apply in_map_iff. exists e. split; [exact He|].
    apply list_elem_of_In. apply list_elem_of_In in Hin.
    exact (subseteq_take 500 m e Hin).
  - apply get_last, Hk.
Qed.

End DedupMap.

Section DedupInvariant.

Implicit Types (k key : string) (v : Z) (m : JsMap.t).

Lemma has_set k k' v m :
  JsMap.has k' (JsMap.set k v m) = String.eqb k k' || JsMap.has k' m.
Proof.
  induction m as [|[k0 v0] m IH]; simpl.
  - rewrite orb_false_r. reflexivity.
  - destruct (String.eqb_spec k0 k) as [->|Hne]; simpl.
    + destruct (String.eqb k k'); reflexivity.
    + rewrite IH. destruct (String.eqb k0 k'), (String.eqb k k'); reflexivity.
Qed.

Lemma keys_app m1 m2 : JsMap.keys (m1 ++ m2) = JsMap.keys m1 ++ JsMap.keys m2.
Proof. apply map_app. Qed.

Lemma keys_drop n m : JsMap.keys (drop n m) = drop n (JsMap.keys m).
Proof.
  revert n; induction m as [|e m IH]; intros [|n]; simpl; try reflexivity. apply IH.
Qed.

(** One insertion of a new key followed by the clean-up keeps the
    invariant; the map never holds more than 1001 entries meanwhile. *)
Lemma invariant_insert key v m :
  mapInvariant m -> JsMap.has key m = false ->
  NoDup (JsMap.keys (JsMap.set key v m)) /\
  JsMap.size (JsMap.set key v m) = S (JsMap.size m) /\
  mapInvariant (cleanupOldMessages (JsMap.set key v m)).
Proof.
  intros [Hnd Hsize] Hkey. rewrite (set_absent _ _ _ Hkey).
  assert (Hnd' : NoDup (JsMap.keys (m ++ [(key, v)]))).
  { rewrite keys_app. apply NoDup_app. split; [exact Hnd|]. split.
    - intros x Hx Hin. apply list_elem_of_singleton in Hin. subst x.
      apply has_false_iff in Hkey. apply Hkey, list_elem_of_In, Hx.
    - apply NoDup_singleton. }
  assert (Hlen : JsMap.size (m ++ [(key, v)]) = S (JsMap.size m)).
  { unfold JsMap.size. rewrite length_app. simpl. lia. }
  split; [exact Hnd'|]. split; [exact Hlen|].
  destruct (le_lt_dec (JsMap.size (m ++ [(key, v)])) 1000) as [Hle|Hgt].
  - rewrite cleanup_small by exact Hle. split; assumption.
  - rewrite cleanup_large by assumption. split.
    + rewrite keys_drop. apply (sublist_NoDup _ _ Hnd'), sublist_drop.
    + unfold JsMap.size in *. rewrite length_drop. lia.
Qed.

Lemma deliver_not_duplicate d : deliver d <> Duplicate.
Proof.
  unfold deliver. destruct d as [d|]; [|discriminate].
  destruct (sendToSignalK d); discriminate.
Qed.

(** The map after a message: untouched, or the new key inserted and the
    clean-up run. *)
Lemma handle_map rt cfg clock m topic messageStr :
  fst (handleMQTTMessage rt cfg clock m topic messageStr) = m \/
  (JsMap.has (messageKey topic messageStr) m = false /\
   fst (handleMQTTMessage rt cfg clock m topic messageStr)
   = cleanupOldMessages (JsMap.set (messageKey topic messageStr) (now clock) m)).
Proof.
  unfold handleMQTTMessage, recordMessage.
  destruct (findRule _ _ _ _ _) as [| |[rule|]]; try (left; reflexivity).
  destruct (ignoreDuplicates rule); [|left; reflexivity].
  destruct (JsMap.has _ m) eqn:E; [left; reflexivity|].
  right. split; reflexivity.
Qed.

Lemma step_invariant m e : mapInvariant m -> mapInvariant (step m e).
Proof.
  intros Hm. destruct e as [rt cfg clock topic messageStr|]; simpl.
  - destruct (handle_map rt cfg clock m topic messageStr) as [->|[Hk ->]]; [exact Hm|].
    apply invariant_insert; assumption.
  - split; [apply NoDup_nil_2 | unfold JsMap.size; simpl; lia].
Qed.

Lemma run_invariant events : mapInvariant (run events).
Proof.
  unfold run.
  assert (H : mapInvariant JsMap.empty).
  { split; [apply NoDup_nil_2 | unfold JsMap.size; simpl; lia]. }
  revert H. generalize JsMap.empty.
  induction events as [|e events IH]; intros m Hm; simpl; [exact Hm|].
  apply IH, step_invariant, Hm.
Qed.

End DedupInvariant.

(** C2.  After any run of the plugin the deduplication map holds at most
    1000 entries.  A message either leaves the map alone or inserts one new
    key and runs the clean-up; right after the insertion the map holds one
    entry more, so at most 1001; when that exceeds 1000 the clean-up removes
    the first 500 entries in insertion order, all of them, and leaves the
    later entries as they are. *)
Theorem dedup_cache_bounded (events : list Event) :
  let m := run events in
  (JsMap.size m <= 1000)%nat /\
  (forall rt cfg clock topic messageStr,
     let m' := fst (handleMQTTMessage rt cfg clock m topic messageStr) in
     let key := messageKey topic messageStr in
     m' = m \/
     (JsMap.has key m = false /\
      m' = cleanupOldMessages (JsMap.set key (now clock) m))) /\
  (forall key v,
     JsMap.has key m = false ->
     let inserted := JsMap.set key v m in
     JsMap.size inserted = S (JsMap.size m) /\
     (JsMap.size inserted <= 1001)%nat /\
     ((JsMap.size inserted <= 1000)%nat -> cleanupOldMessages inserted = inserted) /\
     ((1000 < JsMap.size inserted)%nat ->
        inserted = take 500 inserted ++ cleanupOldMessages inserted /\
        length (take 500 inserted) = 500%nat /\
        JsMap.size (cleanupOldMessages inserted) = 501%nat)).
Proof.
  intros m. pose proof (run_invariant events) as Hinv. fold m in Hinv.
  split; [exact (proj2 Hinv)|]. split; [intros; apply handle_map|].
  intros key v Hkey inserted.
  destruct (invariant_insert key v m Hinv Hkey) as (Hnd & Hlen & _).
  fold inserted in Hnd, Hlen. destruct Hinv as [_ Hsize].
  split; [exact Hlen|]. split; [lia|]. split; [apply cleanup_small|].
  intros Hbig. rewrite (cleanup_large _ Hnd Hbig).
  split; [symmetry; apply take_drop|].
  unfold JsMap.size in *. rewrite length_take, length_drop. lia.
Qed.

(** The 1001st distinct message of a run evicts the first 500: the map then
    holds the keys of the messages 500 to 1000, in that order. *)
Example eviction_run (rt : Runtime) (clock : Clock) :
  JsMap.keys (run (burst rt clock 1001))
  = List.map (fun k => messageKey "a/b" (numeral k)) (seq 500 501).
Proof. vm_compute. reflexivity. Qed.

Lemma dedup_cache_bounded_witness :
  let events :=
    [Message (exampleRuntime numberTable) (exampleConfig [underA]) exampleClock "a/b" "1"] in
  JsMap.has "a/c:2" (run events) = false /\
  JsMap.size (JsMap.set "a/c:2" 5 (run events)) = 2%nat.
Proof.
  intros events. split; [reflexivity|].
  exact (proj1 (proj2 (proj2 (dedup_cache_bounded events)) "a/c:2" 5%Z eq_refl)).
Defined.

Lemma append_inj_prefix (p s t : string) : p +:+ s = p +:+ t -> s = t.
Proof.
  induction p as [|a p IH]; simpl; [tauto|]. intros [= H]. exact (IH H).
Qed.

(** For one topic the key tells the payloads apart. *)
Lemma messageKey_payload topic messageStr messageStr' :
  messageKey topic messageStr = messageKey topic messageStr' -> messageStr = messageStr'.
Proof.
  unfold messageKey. intros H. apply append_inj_prefix in H.
  exact (append_inj_prefix ":" _ _ H).
Qed.

(** What [handleMQTTMessage] does once the scan has found [rule]. *)
Lemma handle_found rt cfg clock m topic messageStr rule :
  findRule (regexp rt) (topicPrefix cfg) (selfVesselUrn cfg) (importRules cfg) topic
  = ScanEnded (Some rule) ->
  handleMQTTMessage rt cfg clock m topic messageStr =
  if ignoreDuplicates rule then
    if JsMap.has (messageKey topic messageStr) m then (m, Duplicate)
    else (cleanupOldMessages (JsMap.set (messageKey topic messageStr) (now clock) m),
          deliver (parseMessage rt cfg clock messageStr rule topic))
  else (m, deliver (parseMessage rt cfg clock messageStr rule topic)).
Proof.
  intros Hfind. unfold handleMQTTMessage, recordMessage. rewrite Hfind.
  destruct (ignoreDuplicates rule); [|reflexivity].
  destruct (JsMap.has _ m); reflexivity.
Qed.

(** C7.  Let the scan find [rule] for the topic.  With duplicate
    suppression on: a message whose key the map does not hold is not
    suppressed and its key is recorded with the current instant, after
    which the same message is suppressed and the map, the recorded instant
    with it, stays as it is; a message whose key the map holds is
    suppressed and the map stays as it is; a message on the same topic with
    another payload, not seen before, is not suppressed.  With duplicate
    suppression off no message is suppressed and the map stays as it is. *)
Theorem duplicate_suppression rt cfg clock m topic messageStr rule :
  findRule (regexp rt) (topicPrefix cfg) (selfVesselUrn cfg) (importRules cfg) topic
  = ScanEnded (Some rule) ->
  let key := messageKey topic messageStr in
  let result := handleMQTTMessage rt cfg clock m topic messageStr in
  (ignoreDuplicates rule = true ->
     (JsMap.has key m = false ->
        snd result <> Duplicate /\
        JsMap.get key (fst result) = Some (now clock) /\
        forall clock',
          handleMQTTMessage rt cfg clock' (fst result) topic messageStr
          = (fst result, Duplicate)) /\
     (JsMap.has key m = true -> result = (m, Duplicate)) /\
     (forall clock' messageStr',
        messageStr' <> messageStr ->
        JsMap.has (messageKey topic messageStr') m = false ->
        snd (handleMQTTMessage rt cfg clock' (fst result) topic messageStr') <> Duplicate)) /\
  (ignoreDuplicates rule = false ->
     fst result = m /\ snd result <> Duplicate).
Proof.
  intros Hfind key result.
  assert (Hresult := handle_found rt cfg clock m topic messageStr rule Hfind).
  fold key result in Hresult.
  split.
  - intros Hdup. rewrite Hdup in Hresult. split; [|split].
    + intros Hkey. rewrite Hkey in Hresult. rewrite Hresult. cbn [fst snd].
      assert (Hget := get_cleanup_inserted key (now clock) m Hkey).
      split; [apply deliver_not_duplicate|]. split; [exact Hget|].
      intros clock'. rewrite (handle_found _ _ _ _ _ _ _ Hfind), Hdup.
      fold key. replace (JsMap.has key _) with true; [reflexivity|].
      symmetry. apply has_get. rewrite Hget. discriminate.
    + intros Hkey. rewrite Hkey in Hresult. exact Hresult.
    + intros clock' messageStr' Hne Hkey'.
      rewrite (handle_found _ _ _ _ _ _ _ Hfind), Hdup.
      assert (Hfresh : JsMap.has (messageKey topic messageStr') (fst result) = false).
      { destruct (JsMap.has (messageKey topic messageStr') (fst result)) eqn:E; [|reflexivity].
        rewrite Hresult in E. destruct (JsMap.has key m); cbn [fst] in E; [congruence|].
        apply has_cleanup in E. rewrite has_set, Hkey', orb_false_r in E.
        apply String.eqb_eq in E. symmetry in E.
        apply messageKey_payload in E. contradiction. }
      rewrite Hfresh. cbn [snd]. apply deliver_not_duplicate.
  - intros Hdup. rewrite Hdup in Hresult. rewrite Hresult. cbn [fst snd].
    split; [reflexivity | apply deliver_not_duplicate].
Qed.

Lemma duplicate_suppression_witness :
  let rt := exampleRuntime numberTable in
  let cfg := exampleConfig [underA] in
  let first := handleMQTTMessage rt cfg exampleClock JsMap.empty "a/b" "1" in
  snd first <> Duplicate /\
  JsMap.get "a/b:1" (fst first) = Some (now exampleClock) /\
  (forall clock', handleMQTTMessage rt cfg clock' (fst first) "a/b" "1"
                  = (fst first, Duplicate)) /\
  (forall clock', snd (handleMQTTMessage rt cfg clock' (fst first) "a/b" "2") <> Duplicate).
Proof.
  intros rt cfg first.
  destruct (duplicate_suppression rt cfg exampleClock JsMap.empty "a/b" "1" underA eq_refl)
    as [Hon _].
  destruct (Hon eq_refl) as (Hfirst & _ & Hother).
  destruct (Hfirst eq_refl) as (H1 & H2 & H3).
  split; [exact H1|]. split; [exact H2|]. split; [exact H3|].
  intros clock'. apply (Hother clock' "2"); [discriminate | reflexivity].
Defined.

(** ** The regular expressions of wildcard patterns *)

Section RegexFacts.

Import Regex.

Lemma append_assoc (s t u : string) : (s +:+ t) +:+ u = s +:+ (t +:+ u).
Proof.
  induction s as [|a s IH]; [reflexivity|].
  change (String a ((s +:+ t) +:+ u) = String a (s +:+ (t +:+ u))).
  rewrite IH. reflexivity.
Qed.

(** [notSlashPlus k] succeeds on a text when it starts with a non-empty run
    without slash after which [k] succeeds. *)
Lemma notSlashPlus_true k s :
  notSlashPlus k s = true <->
  exists a w rest, s = String a (w +:+ rest) /\
                   Ascii.eqb a "/" = false /\ freeOf "/" w = true /\ k rest = true.
Proof.
  split.
  - induction s as [|a s IH]; simpl; [discriminate|].
    destruct (Ascii.eqb a "/") eqn:Ea; [discriminate|].
    intros [Hk|Hplus]%orb_prop.
    + exists a, EmptyString, s. repeat split; assumption.
    + destruct (IH Hplus) as (b & w & rest & -> & Eb & Hw & Hk).
      exists a, (String b w), rest. repeat split; try assumption.
      unfold freeOf in *. simpl. rewrite Eb, Hw. reflexivity.
  - intros (a & w & rest & -> & Ea & Hw & Hk). revert a Ea.
    induction w as [|b w IH]; intros a Ea.
    + change (EmptyString +:+ rest) with rest. simpl. rewrite Ea, Hk. reflexivity.
    + change (String b w +:+ rest) with (String b (w +:+ rest)).
      unfold freeOf in Hw. simpl in Hw. apply andb_prop in Hw as [Eb Hw].
      apply negb_true_iff in Eb.
      change (notSlashPlus k (String a (String b (w +:+ rest)))) with
        (if Ascii.eqb a "/" then false
         else k (String b (w +:+ rest)) || notSlashPlus k (String b (w +:+ rest))).
      rewrite Ea. apply orb_true_iff. right. exact (IH Hw b Eb).
Qed.

(** The backtracking matcher accepts a text exactly when a head of it is
    denoted by the expression. *)
Lemma matchHere_denotes re s :
  matchHere re s = true <-> exists w rest, s = w +:+ rest /\ denotes re w.
Proof.
  revert s. induction re as [|[c|] re IH]; intros s.
  - simpl. split; [|reflexivity]. intros _. exists EmptyString, s. split; [reflexivity|constructor].
  - simpl. destruct s as [|a s].
    + split; [discriminate|]. intros (w & rest & Hs & Hw). inversion Hw; subst. discriminate Hs.
    + rewrite andb_true_iff, IH, Ascii.eqb_eq. split.
      * intros [-> (w & rest & -> & Hw)]. exists (String c w), rest.
        split; [reflexivity | constructor; exact Hw].
      * intros (w & rest & Hs & Hw). inversion Hw; subst. injection Hs as -> ->.
        split; [reflexivity | eauto].
  - cbn [matchHere]. rewrite notSlashPlus_true. split.
    + intros (a & w & rest & -> & Ea & Hw & Hk).
      apply IH in Hk as (x & rest' & -> & Hx).
      exists (String a (w +:+ x)), rest'. split.
      * rewrite <- append_assoc. reflexivity.
      * constructor; assumption.
    + intros (x & rest & -> & Hx).
      inversion Hx as [| |re' a w x' Ea Hfree Hx' Hre Hs]; subst.
      exists a, w, (x' +:+ rest). split; [rewrite <- append_assoc; reflexivity|].
      split; [assumption|]. split; [assumption|]. apply IH. eauto.
Qed.

(** [test] accepts a text exactly when some part of it, anywhere, is
    denoted by the expression: nothing anchors the match to the start or to
    the end of the topic. *)
Lemma test_denotes re s :
  test re s = true <->
  exists before w after, s = before +:+ w +:+ after /\ denotes re w.
Proof.
  induction s as [|a s IH].
  - cbn [test]. rewrite orb_false_r, matchHere_denotes. split.
    + intros (w & rest & Hs & Hw). exists EmptyString, w, rest. split; assumption.
    + intros (before & w & after & Hs & Hw).
      destruct before; [|discriminate Hs].
      exists w, after. split; [exact Hs | exact Hw].
  - cbn [test]. rewrite orb_true_iff, matchHere_denotes, IH. split.
    + intros [(w & rest & Hs & Hw)|(before & w & after & -> & Hw)].
      * exists EmptyString, w, rest. split; assumption.
      * exists (String a before), w, after. split; [reflexivity | assumption].
    + intros (before & w & after & Hs & Hw). destruct before as [|b before].
      * left. exists w, after. split; [exact Hs | exact Hw].
      * right. change (String a s = String b (before +:+ w +:+ after)) in Hs.
        injection Hs as -> ->. exists before, w, after. split; [reflexivity | exact Hw].
Qed.

End RegexFacts.

(** Compiling the source built from a pattern of the fragment gives the
    items of the pattern. *)
Lemma compile_wildcardSource pattern :
  Regex.inFragment pattern = true ->
  Regex.compile (wildcardSource pattern) = Some (Regex.patternItems pattern).
Proof.
  unfold Regex.compile, wildcardSource, Regex.patternItems, Regex.inFragment.
  induction pattern as [|c pattern IH]; [reflexivity|].
  cbn [allChars]. intros [Hc Hrest]%andb_prop. specialize (IH Hrest).
  cbn [replaceAllCharStr list_ascii_of_string map]. unfold Regex.patternItem at 1.
  destruct (Ascii.eqb_spec c "+") as [->|Hplus].
  - change ("[^/]+" +:+ replaceAllCharStr "+" "[^/]+" pattern)
      with (String "[" (String "^" (String "/" (String "]" (String "+"
              (replaceAllCharStr "+" "[^/]+" pattern)))))).
    cbn. rewrite IH. reflexivity.
  - cbn [orb] in Hc. apply negb_true_iff in Hc.
    assert (Hbracket : Ascii.eqb "[" c = false).
    { destruct (Ascii.eqb_spec "[" c) as [<-|_]; [discriminate Hc | reflexivity]. }
    cbn [Regex.compileFrom stripPrefix]. rewrite Hbracket, Hc, IH. reflexivity.
Qed.

(** For a pattern of the fragment with a [+], no [#] and no
    [vessels/self/], the matcher looks anywhere in the topic for a part
    denoted by the items of the pattern, or of the pattern with its
    underscores turned into colons. *)
Lemma topicMatches_wildcard self pattern topic :
  includes pattern "#" = false -> includes pattern "+" = true ->
  includes pattern "vessels/self/" = false ->
  Regex.inFragment pattern = true ->
  topicMatches Regex.engine self pattern topic
  = Some (Regex.test (Regex.patternItems pattern) topic ||
          Regex.test (Regex.patternItems (replaceAllChar "_" ":" pattern)) topic).
Proof.
  intros Hhash Hplus Hself Hfrag. unfold topicMatches, selfBranch.
  rewrite Hhash, Hplus, Hself. cbn [RegExp_new RegExp_test Regex.engine].
  rewrite (compile_wildcardSource _ Hfrag), compile_wildcardSource; [reflexivity|].
  clear -Hfrag. unfold Regex.inFragment in *.
  induction pattern as [|c pattern IH]; [reflexivity|].
  cbn [allChars replaceAllChar] in *. apply andb_prop in Hfrag as [Hc Hrest].
  rewrite (IH Hrest), andb_true_r.
  destruct (Ascii.eqb_spec c "_") as [->|_]; [reflexivity | exact Hc].
Qed.

(** C9.  The pattern [vessels/+/navigation/position] holds a [+] and no
    [vessels/self/]; the topic [xvessels/a/navigation/position/extra] does
    not match it segment by segment (it has one segment more, and its first
    segment differs); yet the matcher accepts it, because the expression
    compiled from the pattern denotes a part of the topic and [test] looks
    for such a part anywhere in the topic. *)
Theorem unanchored_wildcard_match :
  let p := "vessels/+/navigation/position" in
  let t := "xvessels/a/navigation/position/extra" in
  includes p "+" = true /\ includes p "#" = false /\
  includes p "vessels/self/" = false /\
  segmentMatch p t = false /\
  (forall self, topicMatches Regex.engine self p t = Some true) /\
  exists re,
    Regex.compile (wildcardSource p) = Some re /\
    Regex.denotes re "vessels/a/navigation/position" /\
    t = "x" +:+ "vessels/a/navigation/position" +:+ "/extra" /\
    forall before after,
      Regex.test re (before +:+ "vessels/a/navigation/position" +:+ after) = true.
Proof.
  cbv zeta. do 4 (split; [reflexivity|]). split; [intros self; reflexivity|].
  eexists. split; [reflexivity|].
  assert (H : Regex.denotes
                (map Regex.Lit (list_ascii_of_string "vessels/")
                 ++ Regex.NotSlashPlus
                 :: map Regex.Lit (list_ascii_of_string "/navigation/position"))
                "vessels/a/navigation/position").
  { cbn [map list_ascii_of_string app].
    do 8 apply Regex.denotes_lit.
    apply (Regex.denotes_plus _ "a" "" "/navigation/position"); [reflexivity..|].
    repeat constructor. }
  split; [exact H|]. split; [reflexivity|].
  intros before after. apply test_denotes. eauto.
Qed.

(** ** 4.7 Key of the deduplication map *)

(** C10.  The messages (topic [a/b:1], payload [2]) and (topic [a/b],
    payload [1:2]) differ and have the same key.  Under a rule that
    suppresses duplicates for both topics, handling the first on an empty
    map makes the handler suppress the second as a duplicate, which it
    does not do on an empty map. *)
Theorem dedup_key_collision (rt : Runtime) (clock1 clock2 : Clock) :
  let cfg := exampleConfig [underA] in
  let first := handleMQTTMessage rt cfg clock1 JsMap.empty "a/b:1" "2" in
  ("a/b:1", "2") <> ("a/b", "1:2") /\
  messageKey "a/b:1" "2" = messageKey "a/b" "1:2" /\
  snd first <> Duplicate /\
  handleMQTTMessage rt cfg clock2 (fst first) "a/b" "1:2" = (fst first, Duplicate) /\
  snd (handleMQTTMessage rt cfg clock2 JsMap.empty "a/b" "1:2") <> Duplicate.
Proof.
  intros cfg first.
  assert (H1 : findRule (regexp rt) (topicPrefix cfg) (selfVesselUrn cfg) (importRules cfg)
                 "a/b:1" = ScanEnded (Some underA)) by reflexivity.
  assert (H2 : findRule (regexp rt) (topicPrefix cfg) (selfVesselUrn cfg) (importRules cfg)
                 "a/b" = ScanEnded (Some underA)) by reflexivity.
  split; [discriminate|]. split; [reflexivity|].
  unfold first. rewrite !(handle_found _ _ _ _ _ _ _ H1), !(handle_found _ _ _ _ _ _ _ H2).
  cbn. repeat split; apply deliver_not_duplicate.
Qed.

(** ** 4.5 Payload interpreter *)

Lemma isArray_truthy o : isArray o = true -> truthyProp o = true.
Proof. destruct o as [[]|]; simpl; congruence. Qed.

(** C6, as amended.  A Full payload whose text parses to an object with a
    truthy [context] (a non-empty text, for one) and an [updates] array is
    returned as parsed, whatever the rule, the topic and the configuration:
    neither the overrides of the rule nor the derivation from the topic
    take part. *)
Theorem full_passthrough rt cfg clock messageStr rule topic parsed :
  JSON_parse rt messageStr = Some parsed ->
  truthyProp (getProp parsed "context") = true ->
  isArray (getProp parsed "updates") = true ->
  parseFullSignalKMessage rt cfg clock messageStr rule topic = Some parsed.
Proof.
  intros Hparse Hcontext Hupdates. unfold parseFullSignalKMessage.
  rewrite Hparse, Hcontext, (isArray_truthy _ Hupdates).
  destruct parsed; [discriminate Hcontext | reflexivity..].
Qed.

Lemma full_passthrough_witness :
  let rt := exampleRuntime [(emptyUpdatesText, emptyUpdatesValue)] in
  parseFullSignalKMessage rt (exampleConfig [plainRule]) exampleClock
    emptyUpdatesText plainRule "vessels/urn_mrn_imo_mmsi_8/navigation/position"
  = Some emptyUpdatesValue.
Proof.
  intros rt. apply full_passthrough; reflexivity.
Defined.

(** C6, as stated, fails: the object parsed from the text below has a
    [context] field and an [updates] array, but its context is the empty
    text, so the parser does not return it; it wraps it as the value of a
    delta whose context and path are derived from the topic. *)
Lemma full_passthrough_counterexample :
  let rt := exampleRuntime [(emptyContextText, emptyContextValue)] in
  let topic := "vessels/urn_mrn_imo_mmsi_8/navigation/position" in
  JSON_parse rt emptyContextText = Some emptyContextValue /\
  hasField "context" emptyContextValue = true /\
  isArray (getProp emptyContextValue "updates") = true /\
  parseFullSignalKMessage rt (exampleConfig [plainRule]) exampleClock
    emptyContextText plainRule topic
  = Some (makeDelta (JStr "vessels.urn:mrn:imo:mmsi:8") "navigation.position"
            emptyContextValue plainRule exampleClock) /\
  parseFullSignalKMessage rt (exampleConfig [plainRule]) exampleClock
    emptyContextText plainRule topic
  <> Some emptyContextValue.
Proof.
  cbv zeta. repeat split. discriminate.
Qed.

(** ** 4.8 Delivery *)

(** C8, as amended.  [sendToSignalK] hands a delta to the sink exactly when
    its [context] is truthy and its [updates] are an array, empty or not,
    and then it hands over that very delta; in every other case the sink
    is not called. *)
Theorem delivery_validation (d : json) :
  (sendToSignalK d = Some d <->
   truthyProp (getProp d "context") = true /\ isArray (getProp d "updates") = true) /\
  (sendToSignalK d = None <->
   ~ (truthyProp (getProp d "context") = true /\ isArray (getProp d "updates") = true)).
Proof.
  assert (H : sendToSignalK d =
              if truthyProp (getProp d "context") && isArray (getProp d "updates")
              then Some d else None).
  { unfold sendToSignalK.
    destruct d; try reflexivity;
      destruct (truthyProp (getProp _ "context")); cbn [negb orb andb]; try reflexivity;
      destruct (isArray (getProp _ "updates")) eqn:E; cbn [negb orb andb];
      rewrite ?(isArray_truthy _ E); try reflexivity;
      destruct (truthyProp _); reflexivity. }
  rewrite H.
  destruct (truthyProp (getProp d "context")), (isArray (getProp d "updates"));
    cbn [andb]; intuition (try discriminate; try congruence).
Qed.

(** C8, as stated, fails: a delta with a context and an empty [updates]
    array passes the validation and reaches the sink; the Full payload
    below is such a delta and the handler delivers it. *)
Lemma delivery_validation_counterexample :
  let rt := exampleRuntime [(emptyUpdatesText, emptyUpdatesValue)] in
  let topic := "vessels/urn_mrn_imo_mmsi_8/navigation/position" in
  hasNonEmptyContext emptyUpdatesValue = true /\
  hasNonEmptyUpdates emptyUpdatesValue = false /\
  sendToSignalK emptyUpdatesValue = Some emptyUpdatesValue /\
  handleMQTTMessage rt (exampleConfig [plainRule]) exampleClock JsMap.empty
    topic emptyUpdatesText
  = ([(messageKey topic emptyUpdatesText, now exampleClock)], Delivered emptyUpdatesValue).
Proof.
  cbv zeta. repeat split.
Qed.

(** * Further properties of the code *)

(** ** Identifier codec *)

Lemma freeOf_replaceAllChar c d s :
  c <> d -> freeOf c (replaceAllChar c d s) = true.
Proof.
  intros Hcd. unfold freeOf. induction s as [|a s IH]; simpl; [reflexivity|].
  rewrite IH, andb_true_r.
  destruct (Ascii.eqb_spec a c) as [->|Hac].
  - destruct (Ascii.eqb_spec d c); [congruence | reflexivity].
  - destruct (Ascii.eqb_spec a c); [congruence | reflexivity].
Qed.

Lemma length_replaceAllChar c d s :
  String.length (replaceAllChar c d s) = String.length s.
Proof. induction s as [|a s IH]; simpl; [reflexivity | rewrite IH; reflexivity]. Qed.

(** X1.  Whatever [urnToMqttFormat] returns holds no colon, is as long as
    its argument, and comes back unchanged from decoding and encoding
    again: only the first encoding of a text with underscores of its own
    loses anything. *)
Theorem encoded_form_is_stable u r :
  urnToMqttFormat (Some u) = Some r ->
  freeOf ":" r = true /\
  String.length r = String.length u /\
  urnToMqttFormat (mqttFormatToUrn (Some r)) = Some r.
Proof.
  unfold urnToMqttFormat. destruct (truthy u) eqn:Hu; [|discriminate].
  intros [= <-].
  assert (Hfree : freeOf ":" (replaceAllChar ":" "_" u) = true)
    by (apply freeOf_replaceAllChar; discriminate).
  split; [exact Hfree|]. split; [apply length_replaceAllChar|].
  unfold mqttFormatToUrn. rewrite replaceAllChar_truthy, Hu. cbv beta iota.
  rewrite !replaceAllChar_truthy, Hu. f_equal.
  apply (replaceAllChar_round_trip "_" ":"); [discriminate | exact Hfree].
Qed.

Lemma encoded_form_is_stable_witness :
  freeOf ":" "urn_my_ns_12" = true /\
  String.length "urn_my_ns_12" = String.length "urn:my_ns:12" /\
  urnToMqttFormat (mqttFormatToUrn (Some "urn_my_ns_12")) = Some "urn_my_ns_12".
Proof. exact (encoded_form_is_stable "urn:my_ns:12" "urn_my_ns_12" eq_refl). Defined.

Lemma decode_encode_iff_witness :
  mqttFormatToUrn (urnToMqttFormat (Some "urn:my_ns:12")) <> Some "urn:my_ns:12" /\
  mqttFormatToUrn (urnToMqttFormat (Some "urn:myns:12")) = Some "urn:myns:12".
Proof.
  split.
  - intros H. apply (decode_encode_iff "urn:my_ns:12" eq_refl) in H. discriminate H.
  - apply (decode_encode_iff "urn:myns:12" eq_refl). reflexivity.
Defined.

(** ** Sub-identifier extraction *)

Section Delimiters.

(** Turning one delimiter into the other. *)
Variables c d : ascii.
Hypothesis Hc : isUrnSeparator c = true.
Hypothesis Hd : isUrnSeparator d = true.

Lemma recode_separator a :
  isUrnSeparator (if Ascii.eqb a c then d else a) = isUrnSeparator a.
Proof.
  destruct (Ascii.eqb_spec a c) as [->|_]; [rewrite Hc, Hd|]; reflexivity.
Qed.

Lemma recode_digit a :
  isDigit a = true -> (if Ascii.eqb a c then d else a) = a.
Proof.
  intros Ha. destruct (Ascii.eqb_spec a c) as [->|_]; [|reflexivity].
  rewrite (isDigit_not_separator c Ha) in Hc. discriminate Hc.
Qed.

Lemma recode_not_digit a :
  isDigit a = false -> isDigit (if Ascii.eqb a c then d else a) = false.
Proof.
  intros Ha. destruct (Ascii.eqb_spec a c) as [->|_]; [|exact Ha].
  destruct (isDigit d) eqn:E; [|reflexivity].
  rewrite (isDigit_not_separator d E) in Hd. discriminate Hd.
Qed.

Lemma stripPrefix_recode w s :
  allChars (fun a => negb (isUrnSeparator a)) w = true ->
  stripPrefix w (replaceAllChar c d s)
  = option_map (replaceAllChar c d) (stripPrefix w s).
Proof.
  revert s. induction w as [|b w IH]; intros s Hw; [reflexivity|].
  cbn [allChars] in Hw. apply andb_prop in Hw as [Hb Hw].
  apply negb_true_iff in Hb.
  destruct s as [|a s]; [reflexivity|]. cbn [replaceAllChar stripPrefix].
  destruct (Ascii.eqb_spec a c) as [->|Hac].
  - destruct (Ascii.eqb_spec b d) as [->|_]; [congruence|].
    destruct (Ascii.eqb_spec b c) as [->|_]; [congruence | reflexivity].
  - destruct (Ascii.eqb b a); [apply IH, Hw | reflexivity].
Qed.

Lemma dropWhile_recode s :
  dropWhile isUrnSeparator (replaceAllChar c d s)
  = replaceAllChar c d (dropWhile isUrnSeparator s).
Proof.
  induction s as [|a s IH]; [reflexivity|].
  cbn [replaceAllChar dropWhile]. rewrite recode_separator.
  destruct (isUrnSeparator a); [exact IH | reflexivity].
Qed.

Lemma word_recode w s :
  allChars (fun a => negb (isUrnSeparator a)) w = true ->
  word w (replaceAllChar c d s) = option_map (replaceAllChar c d) (word w s).
Proof.
  intros Hw. unfold word. rewrite (stripPrefix_recode w s Hw).
  destruct (stripPrefix w s) as [[|a rest]|]; [reflexivity| |reflexivity].
  cbn [option_map replaceAllChar separators]. rewrite recode_separator.
  destruct (isUrnSeparator a); [|reflexivity].
  cbn [option_map]. rewrite dropWhile_recode. reflexivity.
Qed.

Lemma takeWhile_recode s :
  takeWhile isDigit (replaceAllChar c d s) = takeWhile isDigit s.
Proof.
  induction s as [|a s IH]; [reflexivity|].
  cbn [replaceAllChar takeWhile]. destruct (isDigit a) eqn:Ha.
  - rewrite (recode_digit a Ha), Ha, IH. reflexivity.
  - rewrite (recode_not_digit a Ha). reflexivity.
Qed.

Lemma mmsiMatchHere_recode s :
  mmsiMatchHere (replaceAllChar c d s) = mmsiMatchHere s.
Proof.
  unfold mmsiMatchHere.
  rewrite word_recode by reflexivity.
  destruct (word "urn" s) as [s1|]; [|reflexivity]. cbn [option_map].
  rewrite word_recode by reflexivity.
  destruct (word "mrn" s1) as [s2|]; [|reflexivity]. cbn [option_map].
  rewrite word_recode by reflexivity.
  destruct (word "imo" s2) as [s3|]; [|reflexivity]. cbn [option_map].
  rewrite word_recode by reflexivity.
  destruct (word "mmsi" s3) as [s4|]; [|reflexivity]. cbn [option_map].
  rewrite takeWhile_recode. reflexivity.
Qed.

Lemma mmsiSearch_recode s :
  mmsiSearch (replaceAllChar c d s) = mmsiSearch s.
Proof.
  induction s as [|a s IH].
  - reflexivity.
  - change (replaceAllChar c d (String a s))
      with (String (if Ascii.eqb a c then d else a) (replaceAllChar c d s)).
    cbn [mmsiSearch].
    change (String (if Ascii.eqb a c then d else a) (replaceAllChar c d s))
      with (replaceAllChar c d (String a s)).
    rewrite mmsiMatchHere_recode, IH. reflexivity.
Qed.

End Delimiters.

(** X2.  The sub-identifier does not depend on the encoding: extracting
    after [urnToMqttFormat] or after [mqttFormatToUrn] gives what extracting
    from the argument itself gives, for every argument. *)
Theorem extraction_ignores_encoding (u : option string) :
  extractMMSIFromUrn (urnToMqttFormat u) = extractMMSIFromUrn u /\
  extractMMSIFromUrn (mqttFormatToUrn u) = extractMMSIFromUrn u.
Proof.
  destruct u as [u|]; [|split; reflexivity].
  unfold urnToMqttFormat, mqttFormatToUrn.
  destruct (truthy u) eqn:Hu; [|cbn [extractMMSIFromUrn]; rewrite Hu; split; reflexivity].
  cbn [extractMMSIFromUrn]. rewrite !replaceAllChar_truthy, Hu. split.
  - apply mmsiSearch_recode; reflexivity.
  - apply mmsiSearch_recode; reflexivity.
Qed.

Lemma allChars_takeWhile q s : allChars q (takeWhile q s) = true.
Proof.
  induction s as [|a s IH]; simpl; [reflexivity|].
  destruct (q a) eqn:E; simpl; [rewrite E; exact IH | reflexivity].
Qed.

Lemma mmsiSearch_numeric s digits :
  mmsiSearch s = Some digits -> isNumericId digits = true.
Proof.
  induction s as [|a s IH]; cbn [mmsiSearch].
  - discriminate.
  - destruct (mmsiMatchHere (String a s)) as [found|] eqn:E; [|exact IH].
    intros [= <-]. unfold mmsiMatchHere in E.
    destruct (word "urn" _) as [s1|]; [|discriminate].
    destruct (word "mrn" _) as [s2|]; [|discriminate].
    destruct (word "imo" _) as [s3|]; [|discriminate].
    destruct (word "mmsi" _) as [s4|]; [|discriminate].
    destruct (takeWhile isDigit s4) as [|b t] eqn:T; [discriminate|].
    injection E as <-. unfold isNumericId. cbn [truthy andb].
    rewrite <- T. apply allChars_takeWhile.
Qed.

(** X3.  What [extractMMSIFromUrn] returns is a non-empty run of digits,
    never an empty text and never anything else of the token. *)
Theorem extraction_is_numeric u digits :
  extractMMSIFromUrn u = Some digits -> isNumericId digits = true.
Proof.
  destruct u as [u|]; [|discriminate]. cbn [extractMMSIFromUrn].
  destruct (truthy u); [apply mmsiSearch_numeric | discriminate].
Qed.

Lemma extraction_is_numeric_witness :
  isNumericId "368396230" = true.
Proof.
  exact (extraction_is_numeric (Some "urn:mrn:imo:mmsi:368396230x") "368396230" eq_refl).
Defined.

(** ** Exclusion list *)

Lemma trimStart_head s :
  match trimStart s with
  | String a _ => isWhiteSpace a = false
  | EmptyString => True
  end.
Proof.
  induction s as [|a s IH]; simpl; [exact I|].
  destruct (isWhiteSpace a) eqn:E; [exact IH | exact E].
Qed.

Lemma trimEnd_head u :
  match u with String a _ => isWhiteSpace a = false | EmptyString => True end ->
  match trimEnd u with String a _ => isWhiteSpace a = false | EmptyString => True end.
Proof.
  destruct u as [|a u]; [exact (fun H => H)|]. intros Ha. cbn [trimEnd].
  destruct (trimEnd u); [rewrite Ha|]; exact Ha.
Qed.

Lemma trimStart_fixed u :
  match u with String a _ => isWhiteSpace a = false | EmptyString => True end ->
  trimStart u = u.
Proof. destruct u as [|a u]; [reflexivity|]. simpl. intros ->. reflexivity. Qed.

Lemma trimEnd_idempotent s : trimEnd (trimEnd s) = trimEnd s.
Proof.
  induction s as [|a s IH]; [reflexivity|]. cbn [trimEnd].
  destruct (trimEnd s) as [|b t] eqn:E.
  - destruct (isWhiteSpace a) eqn:Ea; [reflexivity|]. cbn [trimEnd]. rewrite Ea. reflexivity.
  - cbn [trimEnd] in IH |- *. rewrite IH. reflexivity.
Qed.

Lemma trim_idempotent s : trim (trim s) = trim s.
Proof.
  unfold trim.
  rewrite (trimStart_fixed (trimEnd (trimStart s)))
    by (apply trimEnd_head, trimStart_head).
  apply trimEnd_idempotent.
Qed.

Lemma split_segments_free c s : forallb (freeOf c) (split c s) = true.
Proof.
  unfold freeOf. induction s as [|a s IH]; [reflexivity|]. cbn [split].
  destruct (Ascii.eqb a c) eqn:E; [exact IH|].
  destruct (split c s) as [|seg segs]; cbn [forallb allChars] in *; rewrite E; [reflexivity|].
  exact IH.
Qed.

Lemma freeOf_trimStart c s : freeOf c s = true -> freeOf c (trimStart s) = true.
Proof.
  unfold freeOf. induction s as [|a s IH]; [reflexivity|]. cbn [trimStart allChars].
  intros [Ha Hs]%andb_prop. destruct (isWhiteSpace a); [exact (IH Hs)|].
  cbn [allChars]. rewrite Ha, Hs. reflexivity.
Qed.

Lemma freeOf_trimEnd c s : freeOf c s = true -> freeOf c (trimEnd s) = true.
Proof.
  unfold freeOf. induction s as [|a s IH]; [reflexivity|]. cbn [trimEnd allChars].
  intros [Ha Hs]%andb_prop. specialize (IH Hs).
  destruct (trimEnd s) as [|b t].
  - destruct (isWhiteSpace a); [reflexivity|]. cbn [allChars]. rewrite Ha. reflexivity.
  - cbn [allChars] in IH |- *. rewrite Ha, IH. reflexivity.
Qed.

(** X4.  Every item of a parsed exclusion list is non-empty, holds no
    comma and has no white space at either end (trimming it again changes
    nothing): blanks and empty entries in the configured text never reach
    the comparison with a sub-identifier. *)
Theorem exclusion_items_are_clean text item :
  In item (parseMMSIExclusionList text) ->
  truthy item = true /\ trim item = item /\ freeOf "," item = true.
Proof.
  intros Hin. unfold parseMMSIExclusionList in Hin.
  destruct (truthy text); [|destruct Hin].
  apply filter_In in Hin as [Hin Hlen]. apply in_map_iff in Hin as (raw & <- & Hraw).
  split; [destruct (trim raw); [discriminate Hlen | reflexivity]|].
  split; [apply trim_idempotent|].
  unfold trim. apply freeOf_trimEnd, freeOf_trimStart.
  pose proof (split_segments_free "," text) as Hall.
  rewrite forallb_forall in Hall. apply Hall, Hraw.
Qed.

Lemma exclusion_items_are_clean_witness :
  truthy "8" = true /\ trim "8" = "8" /\ freeOf "," "8" = true.
Proof.
  apply (exclusion_items_are_clean " 7,, 8 ,"). right. left. reflexivity.
Defined.

(** X5.  Exclusion looks at the first segment of the topic as received.
    Under a configured prefix that segment is the prefix, not [vessels]:
    no vessel is ever excluded, and a rule that matches such a topic is
    selected whatever its exclusion list holds. *)
Theorem exclusion_needs_unprefixed_topic prefix rest rule :
  freeOf "/" prefix = true -> prefix <> "vessels" ->
  let topic := prefix +:+ "/" +:+ rest in
  isMMSIExcluded topic rule = false /\
  forall re self rules,
    enabled rule = true ->
    topicMatches re self (expectedTopicOf prefix rule) topic = Some true ->
    findRule re prefix self (rule :: rules) topic = ScanEnded (Some rule).
Proof.
  intros Hfree Hne topic.
  assert (Hex : isMMSIExcluded topic rule = false).
  { unfold isMMSIExcluded, topic.
    destruct (parseMMSIExclusionList (excludeMMSI rule)); [reflexivity|].
    change (prefix +:+ "/" +:+ rest) with (prefix +:+ String "/" rest).
    rewrite (split_app_separator "/" prefix rest Hfree).
    destruct (split "/" rest) as [|vesselId more]; [reflexivity|].
    destruct (String.eqb_spec prefix "vessels"); [contradiction | reflexivity]. }
  split; [exact Hex|].
  intros re self rules Hen Hmatch. cbn [findRule].
  rewrite Hen, Hmatch, Hex. reflexivity.
Qed.

Lemma exclusion_needs_unprefixed_topic_witness :
  let topic := "boat/vessels/urn_mrn_imo_mmsi_7/navigation/position" in
  isMMSIExcluded topic excludingRule = false /\
  findRule Regex.engine "boat" None [excludingRule; plainRule] topic
  = ScanEnded (Some excludingRule).
Proof.
  destruct (exclusion_needs_unprefixed_topic "boat"
              "vessels/urn_mrn_imo_mmsi_7/navigation/position" excludingRule
              eq_refl ltac:(discriminate)) as [Hex Hfind].
  split; [exact Hex|].
  exact (Hfind Regex.engine None [plainRule] eq_refl eq_refl).
Defined.

Lemma isMMSIExcluded_transport_witness :
  isMMSIExcluded "vessels/urn_mrn_imo_mmsi_7/navigation/position" excludingRule = true /\
  isMMSIExcluded "vessels/urn_mrn_imo_mmsi_8/navigation/position" excludingRule = false.
Proof.
  split.
  - exact (isMMSIExcluded_transport "7" "navigation/position" excludingRule eq_refl
             ltac:(discriminate)).
  - exact (isMMSIExcluded_transport "8" "navigation/position" excludingRule eq_refl
             ltac:(discriminate)).
Defined.

(** ** Derived context and path *)

Lemma freeOf_app c s t : freeOf c (s +:+ t) = freeOf c s && freeOf c t.
Proof. apply allChars_app. Qed.

Lemma freeOf_join c sep parts :
  freeOf c sep = true -> forallb (freeOf c) parts = true ->
  freeOf c (join sep parts) = true.
Proof.
  intros Hsep. induction parts as [|p rest IH]; [reflexivity|].
  cbn [forallb]. intros [Hp Hrest]%andb_prop.
  destruct rest as [|q rest']; [exact Hp|].
  change (join sep (p :: q :: rest')) with (p +:+ sep +:+ join sep (q :: rest')).
  rewrite !freeOf_app, Hp, Hsep, (IH Hrest). reflexivity.
Qed.

Lemma startsWith_app s t : startsWith (s +:+ t) s = true.
Proof. apply startsWith_spec. exists t. reflexivity. Qed.

(** X6.  Whatever the topic, the prefix and the self identifier, the
    derived context starts with [vessels.] and the derived path holds no
    slash. *)
Theorem derived_context_and_path_shape prefix self topic :
  startsWith (extractContextFromTopic prefix self topic) "vessels." = true /\
  freeOf "/" (extractPathFromTopic prefix topic) = true.
Proof.
  split.
  - unfold extractContextFromTopic.
    destruct (split "/" (cleanTopicOf prefix topic)) as [|first [|vesselId [|third more]]];
      try reflexivity.
    destruct (String.eqb first "vessels"); [|reflexivity].
    destruct (isSelfVessel self vesselId); [reflexivity|].
    destruct (startsWith vesselId "urn_"); [apply startsWith_app|].
    destruct (startsWith vesselId "urn:"); apply startsWith_app.
  - unfold extractPathFromTopic.
    pose proof (split_segments_free "/" (cleanTopicOf prefix topic)) as Hall.
    destruct (split "/" (cleanTopicOf prefix topic)) as [|first [|vesselId [|third more]]];
      try (apply freeOf_replaceAllChar; discriminate).
    destruct (String.eqb first "vessels"); [|apply freeOf_replaceAllChar; discriminate].
    apply freeOf_join; [reflexivity|].
    cbn [forallb] in Hall. apply andb_prop in Hall as [_ Hall].
    apply andb_prop in Hall as [_ Hall]. exact Hall.
Qed.

(** ** Payload interpreter and delivery *)

Lemma truthy_startsWith s p : truthy p = true -> startsWith s p = true -> truthy s = true.
Proof.
  intros Hp [rest ->]%startsWith_spec. destruct p; [discriminate Hp | reflexivity].
Qed.

Lemma derived_context_truthy prefix self topic :
  truthy (extractContextFromTopic prefix self topic) = true.
Proof.
  apply (truthy_startsWith _ "vessels."); [reflexivity|].
  unfold extractContextFromTopic.
  destruct (split "/" (cleanTopicOf prefix topic)) as [|first [|vesselId [|third more]]];
    try reflexivity.
  destruct (String.eqb first "vessels"); [|reflexivity].
  destruct (isSelfVessel self vesselId); [reflexivity|].
  destruct (startsWith vesselId "urn_"); [apply startsWith_app|].
  destruct (startsWith vesselId "urn:"); apply startsWith_app.
Qed.

Lemma orElse_truthy a b : truthy b = true -> truthy (orElse a b) = true.
Proof. intros Hb. unfold orElse. destruct (truthy a) eqn:E; assumption. Qed.

(** A delta built by the parsers passes the validation of [sendToSignalK]
    as soon as its context is truthy. *)
Lemma sendToSignalK_makeDelta context path value rule clock :
  truthyValue context = true ->
  sendToSignalK (makeDelta context path value rule clock)
  = Some (makeDelta context path value rule clock).
Proof.
  intros Hc. unfold sendToSignalK, makeDelta. cbn. rewrite Hc. reflexivity.
Qed.

(** X7.  A value-only payload is never lost: whatever the text, the rule
    and the topic, [parseValueOnlyMessage] builds a delta and
    [sendToSignalK] hands it to the sink; a rule of that format found by
    the scan ends in a delivery unless the message is a duplicate. *)
Theorem value_only_is_always_delivered rt cfg clock messageStr rule topic :
  (exists delta,
     parseValueOnlyMessage rt cfg clock messageStr rule topic = Some delta /\
     sendToSignalK delta = Some delta) /\
  (forall m,
     findRule (regexp rt) (topicPrefix cfg) (selfVesselUrn cfg) (importRules cfg) topic
     = ScanEnded (Some rule) ->
     payloadFormat rule = "value-only" ->
     snd (handleMQTTMessage rt cfg clock m topic messageStr) = Duplicate \/
     exists delta, snd (handleMQTTMessage rt cfg clock m topic messageStr) = Delivered delta).
Proof.
  assert (Hparse : exists delta,
             parseValueOnlyMessage rt cfg clock messageStr rule topic = Some delta /\
             sendToSignalK delta = Some delta).
  { unfold parseValueOnlyMessage. eexists. split; [reflexivity|].
    apply sendToSignalK_makeDelta. cbn [truthyValue].
    apply orElse_truthy, derived_context_truthy. }
  split; [exact Hparse|].
  intros m Hfind Hformat. rewrite (handle_found _ _ _ _ _ _ _ Hfind).
  destruct Hparse as (delta & Hdelta & Hsend).
  assert (Hdeliver : deliver (parseMessage rt cfg clock messageStr rule topic) = Delivered delta).
  { unfold parseMessage. rewrite Hformat, String.eqb_refl, Hdelta.
    cbn [deliver]. rewrite Hsend. reflexivity. }
  rewrite Hdeliver.
  destruct (ignoreDuplicates rule); [|right; eauto].
  destruct (JsMap.has _ m); [left; reflexivity | right; eauto].
Qed.

Lemma value_only_is_always_delivered_witness :
  let rule :=
    {| ruleId := "v"; ruleName := "v"; mqttTopic := "a/#"; signalKContext := "";
       signalKPath := ""; sourceLabel := ""; enabled := true;
       payloadFormat := "value-only"; ignoreDuplicates := false; excludeMMSI := "" |} in
  snd (handleMQTTMessage (exampleRuntime numberTable) (exampleConfig [rule]) exampleClock
         JsMap.empty "a/b" "hello")
  = Delivered (makeDelta (JStr "vessels.self") "a.b" (JStr "hello") rule exampleClock).
Proof.
  intros rule.
  destruct (proj2 (value_only_is_always_delivered (exampleRuntime numberTable)
                     (exampleConfig [rule]) exampleClock "hello" rule "a/b")
              JsMap.empty eq_refl eq_refl) as [H|[delta H]].
  - discriminate H.
  - reflexivity.
Defined.

(** What the validation of [sendToSignalK] comes to. *)
Lemma sendToSignalK_eq d :
  sendToSignalK d =
  if truthyProp (getProp d "context") && isArray (getProp d "updates")
  then Some d else None.
Proof.
  unfold sendToSignalK.
  destruct d; try reflexivity;
    destruct (truthyProp (getProp _ "context")); cbn [negb orb andb]; try reflexivity;
    destruct (isArray (getProp _ "updates")) eqn:E; cbn [negb orb andb];
    rewrite ?(isArray_truthy _ E); try reflexivity;
    destruct (truthyProp _); reflexivity.
Qed.

(** The context of a delta wrapped by [parseFullSignalKMessage] is
    truthy: the override of the rule, the truthy context of the payload or
    the context derived from the topic. *)
Lemma wrapped_context_truthy prefix self topic ruleContext (c : option json) :
  truthyValue
    (if truthy ruleContext then JStr ruleContext
     else match c with
          | Some v => if truthyValue v then v
                      else JStr (extractContextFromTopic prefix self topic)
          | None => JStr (extractContextFromTopic prefix self topic)
          end) = true.
Proof.
  destruct (truthy ruleContext) eqn:E; [exact E|].
  destruct c as [v|]; [|apply derived_context_truthy].
  destruct (truthyValue v) eqn:Ev; [exact Ev | apply derived_context_truthy].
Qed.

(** The outcome of a Full payload that parses to a value other than
    [null]. *)
Lemma full_outcome_parsed rt cfg clock messageStr rule topic parsed :
  JSON_parse rt messageStr = Some parsed -> parsed <> JNull ->
  let outcome := deliver (parseFullSignalKMessage rt cfg clock messageStr rule topic) in
  if truthyProp (getProp parsed "context") && truthyProp (getProp parsed "updates")
  then outcome = if isArray (getProp parsed "updates") then Delivered parsed else InvalidData
  else exists delta, outcome = Delivered delta.
Proof.
  intros Hparse Hnull outcome. subst outcome. unfold parseFullSignalKMessage.
  rewrite Hparse.
  destruct (truthyProp (getProp parsed "context")) eqn:Hc;
    destruct (truthyProp (getProp parsed "updates")) eqn:Hu; cbn [andb];
    destruct parsed; try contradiction; cbn [deliver];
    rewrite ?Hc, ?Hu; cbn [andb];
    try (rewrite sendToSignalK_eq, Hc; cbn [andb];
         match goal with |- context [isArray ?o] => destruct (isArray o) end; reflexivity);
    rewrite sendToSignalK_makeDelta by apply wrapped_context_truthy;
    eexists; reflexivity.
Qed.

(** X8.  A Full payload under a found rule: parsing fails exactly when the
    text is no JSON or is the JSON [null]; the validation rejects exactly
    the parsed objects with a truthy [context] and a truthy [updates] that
    is no array; every other payload is delivered, and a payload wrapped by
    the parser is never rejected. *)
Theorem full_payload_outcome rt cfg clock messageStr rule topic :
  let outcome := deliver (parseFullSignalKMessage rt cfg clock messageStr rule topic) in
  (outcome = ParseFailed <->
   JSON_parse rt messageStr = None \/ JSON_parse rt messageStr = Some JNull) /\
  (outcome = InvalidData <->
   exists parsed,
     JSON_parse rt messageStr = Some parsed /\
     truthyProp (getProp parsed "context") = true /\
     truthyProp (getProp parsed "updates") = true /\
     isArray (getProp parsed "updates") = false) /\
  (outcome <> ParseFailed -> outcome <> InvalidData ->
   exists delta, outcome = Delivered delta).
Proof.
  intros outcome.
  destruct (JSON_parse rt messageStr) as [parsed|] eqn:Hparse.
  2:{ assert (H : outcome = ParseFailed).
      { unfold outcome, parseFullSignalKMessage. rewrite Hparse. reflexivity. }
      rewrite H. split; [tauto|]. split; [|congruence].
      split; [discriminate | intros (? & [=] & _)]. }
  assert (Hcases : parsed = JNull \/ parsed <> JNull).
  { destruct parsed; [left; reflexivity | right; discriminate ..]. }
  destruct Hcases as [->|Hnull].
  { assert (H : outcome = ParseFailed).
    { unfold outcome, parseFullSignalKMessage. rewrite Hparse. reflexivity. }
    rewrite H. split; [tauto|]. split; [|congruence].
    split; [discriminate | intros (? & [= <-] & Hc & _); discriminate Hc]. }
  pose proof (full_outcome_parsed rt cfg clock messageStr rule topic parsed Hparse Hnull) as H.
  cbv zeta in H. fold outcome in H.
  destruct (truthyProp (getProp parsed "context")) eqn:Hc;
    destruct (truthyProp (getProp parsed "updates")) eqn:Hu; cbn [andb] in H.
  - destruct (isArray (getProp parsed "updates")) eqn:Ha; rewrite H.
    + split; [split; [discriminate | intros [[=]|[= ->]]; contradiction]|].
      split; [|eauto].
      split; [discriminate | intros (? & [= <-] & _ & _ & Ha'); congruence].
    + split; [split; [discriminate | intros [[=]|[= ->]]; contradiction]|].
      split; [|congruence].
      split; [intros _; exists parsed; auto | reflexivity].
  - destruct H as [delta ->].
    split; [split; [discriminate | intros [[=]|[= ->]]; contradiction]|].
    split; [|eauto].
    split; [discriminate | intros (? & [= <-] & _ & Hu' & _); congruence].
  - destruct H as [delta ->].
    split; [split; [discriminate | intros [[=]|[= ->]]; contradiction]|].
    split; [|eauto].
    split; [discriminate | intros (? & [= <-] & Hc' & _); congruence].
  - destruct H as [delta ->].
    split; [split; [discriminate | intros [[=]|[= ->]]; contradiction]|].
    split; [|eauto].
    split; [discriminate | intros (? & [= <-] & Hc' & _); congruence].
Qed.

(** ** Patterns with a multi-level wildcard *)

Lemma splitAtFirst_spec pat s before after :
  splitAtFirst pat s = Some (before, after) -> s = before +:+ pat +:+ after.
Proof.
  revert before. induction s as [|a s IH]; intros before; cbn [splitAtFirst].
  - destruct (stripPrefix pat EmptyString) as [rest|] eqn:E; [|discriminate].
    intros [= <- <-]. apply stripPrefix_spec in E. exact E.
  - destruct (stripPrefix pat (String a s)) as [rest|] eqn:E.
    + intros [= <- <-]. apply stripPrefix_spec in E. exact E.
    + destruct (splitAtFirst pat s) as [[b r]|]; [|discriminate].
      intros [= <- <-]. rewrite (IH b eq_refl). reflexivity.
Qed.

Lemma includes_char c s : includes s (String c EmptyString) = negb (freeOf c s).
Proof.
  unfold includes, freeOf. induction s as [|a s IH]; [reflexivity|].
  cbn [splitAtFirst stripPrefix allChars].
  rewrite (Ascii.eqb_sym c a).
  destruct (Ascii.eqb a c); [reflexivity|]. cbn [negb andb].
  rewrite <- IH. destruct (splitAtFirst (String c EmptyString) s) as [[b r]|]; reflexivity.
Qed.

Lemma freeOf_prefix c topic p :
  startsWith topic p = true -> freeOf c topic = true -> freeOf c p = true.
Proof.
  intros [rest ->]%startsWith_spec. rewrite freeOf_app. intros [H _]%andb_prop. exact H.
Qed.

Lemma not_free_prefix c topic p :
  freeOf c topic = true -> freeOf c p = false -> startsWith topic p = false.
Proof.
  intros Ht Hp. destruct (startsWith topic p) eqn:E; [|reflexivity].
  rewrite (freeOf_prefix c topic p E Ht) in Hp. discriminate Hp.
Qed.

(** Replacing the first occurrence of a text that holds no [c] keeps the
    occurrences of [c] outside it. *)
Lemma replace_keeps c s pat repl :
  freeOf c pat = true -> freeOf c s = false -> freeOf c (replace s pat repl) = false.
Proof.
  intros Hpat Hs. unfold replace.
  destruct (splitAtFirst pat s) as [[before after]|] eqn:E; [|exact Hs].
  apply splitAtFirst_spec in E. subst s.
  rewrite !freeOf_app, Hpat in Hs. rewrite !freeOf_app.
  destruct (freeOf c before); [|reflexivity].
  destruct (freeOf c after); [discriminate Hs|]. apply andb_false_r.
Qed.

Lemma freeOf_recode c x y s :
  c <> x -> c <> y -> freeOf c (replaceAllChar x y s) = freeOf c s.
Proof.
  intros Hx Hy. unfold freeOf. induction s as [|a s IH]; [reflexivity|].
  cbn [replaceAllChar allChars]. rewrite IH. f_equal.
  destruct (Ascii.eqb_spec a x) as [->|_]; [|reflexivity].
  destruct (Ascii.eqb_spec y c), (Ascii.eqb_spec x c); congruence.
Qed.

(** A pattern with a [#] and some [+] is compared as a prefix that holds
    the [+]: a topic without [+] cannot start with it. *)
Lemma hash_pattern_rejects re self pattern topic :
  includes pattern "#" = true -> freeOf "+" pattern = false ->
  freeOf "+" topic = true ->
  topicMatches re self pattern topic = Some false.
Proof.
  intros Hhash Hplus Htopic. unfold topicMatches. rewrite Hhash.
  assert (Hprefix : freeOf "+" (replace pattern "#" "") = false)
    by (apply replace_keeps; [reflexivity | exact Hplus]).
  assert (Hno : forall p, freeOf "+" p = false -> startsWith topic p = false)
    by (intros p; apply not_free_prefix, Htopic).
  rewrite (Hno _ Hprefix).
  destruct (selfBranch (replace pattern "#" "") self) as [urn|].
  - unfold substituteSelf at 1.
    rewrite (Hno (replace (replace pattern "#" "") "vessels/self/" _))
      by (apply replace_keeps; [reflexivity | exact Hprefix]).
    unfold substituteUnderscore. destruct (urnToMqttFormat (Some urn)) as [u|]; [|reflexivity].
    destruct (truthy u); [|reflexivity]. unfold substituteSelf.
    rewrite (Hno (replace (replace pattern "#" "") "vessels/self/" _))
      by (apply replace_keeps; [reflexivity | exact Hprefix]).
    rewrite andb_false_r. reflexivity.
  - rewrite Hno; [reflexivity|].
    rewrite freeOf_recode by discriminate. exact Hprefix.
Qed.

(** X9.  In a pattern with a [#] the sign [+] is no wildcard: the pattern
    is compared as a prefix, character by character, so a pattern that
    holds both signs accepts no topic without a [+] of its own, whatever
    the self identifier. *)
Theorem plus_is_literal_beside_hash re self pattern topic :
  includes pattern "#" = true -> includes pattern "+" = true ->
  freeOf "+" topic = true ->
  topicMatches re self pattern topic = Some false.
Proof.
  intros Hhash Hplus Htopic.
  rewrite includes_char in Hplus. apply negb_true_iff in Hplus.
  exact (hash_pattern_rejects re self pattern topic Hhash Hplus Htopic).
Qed.

Lemma plus_is_literal_beside_hash_witness :
  topicMatches Regex.engine (Some "urn:mrn:imo:mmsi:368396230")
    "vessels/urn_mrn_imo_mmsi_+/navigation/#"
    "vessels/urn_mrn_imo_mmsi_368396230/navigation/position" = Some false.
Proof.
  apply plus_is_literal_beside_hash; reflexivity.
Defined.

(** X10.  With the rules of [getDefaultImportRules], under any prefix and
    self identifier, no message on a topic without [+] is imported: the
    three enabled rules hold [+] beside [#] and reject the topic, and the
    scan then leaves the handler at the first disabled rule; the map stays
    as it is. *)
Theorem default_rules_import_nothing rt cfg clock m topic messageStr :
  importRules cfg = getDefaultImportRules ->
  freeOf "+" topic = true ->
  handleMQTTMessage rt cfg clock m topic messageStr = (m, ReturnedAtDisabledRule).
Proof.
  intros Hrules Htopic. unfold handleMQTTMessage. rewrite Hrules.
  assert (Hreject : forall r,
            includes (mqttTopic r) "#" = true -> includes (mqttTopic r) "+" = true ->
            topicMatches (regexp rt) (selfVesselUrn cfg)
              (expectedTopicOf (topicPrefix cfg) r) topic = Some false).
  { intros r Hhash Hplus.
    assert (Hkeep : forall c, includes (mqttTopic r) (String c EmptyString) = true ->
                              freeOf c (expectedTopicOf (topicPrefix cfg) r) = false).
    { intros c. rewrite includes_char. unfold expectedTopicOf. intros Hc%negb_true_iff.
      destruct (truthy (topicPrefix cfg)); [|exact Hc].
      rewrite !freeOf_app, Hc, !andb_false_r. reflexivity. }
    apply hash_pattern_rejects; [|exact (Hkeep "+"%char Hplus)|exact Htopic].
    rewrite includes_char, (Hkeep "#"%char Hhash). reflexivity. }
  unfold getDefaultImportRules. cbn [findRule].
  repeat (rewrite Hreject by reflexivity; cbn [enabled defaultRule negb andb]).
  reflexivity.
Qed.

Lemma default_rules_import_nothing_witness :
  handleMQTTMessage (exampleRuntime numberTable)
    {| topicPrefix := ""; selfVesselUrn := Some "urn:mrn:imo:mmsi:368396230";
       importRules := getDefaultImportRules |}
    exampleClock JsMap.empty "vessels/urn_mrn_imo_mmsi_368396230/navigation/position" "1"
  = (JsMap.empty, ReturnedAtDisabledRule).
Proof.
  apply default_rules_import_nothing; reflexivity.
Defined.

Lemma append_nil_r (s : string) : s +:+ EmptyString = s.
Proof.
  induction s as [|a s IH]; [reflexivity|].
  change (String a (s +:+ EmptyString) = String a s). rewrite IH. reflexivity.
Qed.

Lemma length_app_string (s t : string) :
  String.length (s +:+ t) = (String.length s + String.length t)%nat.
Proof.
  induction s as [|a s IH]; [reflexivity|].
  change (S (String.length (s +:+ t)) = S (String.length s + String.length t)).
  rewrite IH. reflexivity.
Qed.

Lemma startsWith_length s p :
  startsWith s p = true -> (String.length p <= String.length s)%nat.
Proof.
  intros [rest ->]%startsWith_spec. rewrite length_app_string. lia.
Qed.

Lemma splitAtFirst_char c before after :
  freeOf c before = true ->
  splitAtFirst (String c EmptyString) (before +:+ String c after) = Some (before, after).
Proof.
  unfold freeOf. induction before as [|a before IH]; intros Hfree.
  - change (EmptyString +:+ String c after) with (String c after).
    cbn [splitAtFirst stripPrefix]. rewrite Ascii.eqb_refl. reflexivity.
  - cbn [allChars] in Hfree. apply andb_prop in Hfree as [Ha Hfree].
    apply negb_true_iff in Ha.
    change (String a before +:+ String c after) with (String a (before +:+ String c after)).
    cbn [splitAtFirst stripPrefix]. rewrite (Ascii.eqb_sym c a), Ha, (IH Hfree). reflexivity.
Qed.

(** X11.  A rule [q/#] accepts every topic below [q], that is [q/]
    followed by anything, and does not accept the topic [q] itself: the
    comparison is with the text before the sign, slash included. *)
Theorem hash_rule_scope re self q rest :
  freeOf "#" q = true -> includes (q +:+ "/") "vessels/self/" = false ->
  topicMatches re self (q +:+ "/#") (q +:+ "/" +:+ rest) = Some true /\
  topicMatches re self (q +:+ "/#") q = Some false.
Proof.
  intros Hq Hself.
  assert (Hpattern : q +:+ "/#" = (q +:+ "/") +:+ String "#" EmptyString)
    by (rewrite append_assoc; reflexivity).
  assert (Hfree : freeOf "#" (q +:+ "/") = true)
    by (rewrite freeOf_app, Hq; reflexivity).
  assert (Hprefix : replace (q +:+ "/#") "#" "" = q +:+ "/").
  { unfold replace. rewrite Hpattern, (splitAtFirst_char "#" _ EmptyString Hfree).
    cbn [getSubstitution]. rewrite !append_nil_r. reflexivity. }
  assert (Hhash : includes (q +:+ "/#") "#" = true).
  { unfold includes. rewrite Hpattern, (splitAtFirst_char "#" _ EmptyString Hfree). reflexivity. }
  unfold topicMatches. rewrite Hhash, Hprefix. unfold selfBranch. rewrite Hself.
  split.
  - rewrite <- append_assoc, startsWith_app. reflexivity.
  - assert (Hshort : forall p, String.length p = S (String.length q) -> startsWith q p = false).
    { intros p Hp. destruct (startsWith q p) eqn:E; [|reflexivity].
      apply startsWith_length in E. lia. }
    rewrite !Hshort; [reflexivity| |].
    + rewrite length_replaceAllChar, length_app_string. simpl. lia.
    + rewrite length_app_string. simpl. lia.
Qed.

Lemma hash_rule_scope_witness :
  topicMatches Regex.engine None "vessels/a/#" "vessels/a/navigation/position" = Some true /\
  topicMatches Regex.engine None "vessels/a/#" "vessels/a" = Some false.
Proof.
  exact (hash_rule_scope Regex.engine None "vessels/a" "navigation/position" eq_refl eq_refl).
Defined.

(** ** Patterns with a single-level wildcard *)

Lemma denotes_instantiate pattern levels :
  forallb isLevel levels = true ->
  Regex.denotes (Regex.patternItems pattern) (instantiate pattern levels).
Proof.
  unfold Regex.patternItems. revert levels.
  induction pattern as [|c pattern IH]; intros levels Hlevels; [constructor|].
  cbn [list_ascii_of_string map instantiate]. unfold Regex.patternItem at 1.
  destruct (Ascii.eqb_spec c "+") as [->|Hc].
  - destruct levels as [|level levels].
    + apply (Regex.denotes_plus _ "+" EmptyString); [reflexivity | reflexivity|].
      apply IH. reflexivity.
    + cbn [forallb] in Hlevels. apply andb_prop in Hlevels as [Hlevel Hlevels].
      unfold isLevel in Hlevel. apply andb_prop in Hlevel as [Ht Hfree].
      destruct level as [|a w]; [discriminate Ht|].
      unfold freeOf in Hfree. cbn [allChars] in Hfree.
      apply andb_prop in Hfree as [Ha Hw]. apply negb_true_iff in Ha.
      change (String a w +:+ instantiate pattern levels)
        with (String a (w +:+ instantiate pattern levels)).
      apply Regex.denotes_plus; [exact Ha | exact Hw | apply IH, Hlevels].
  - apply Regex.denotes_lit, IH, Hlevels.
Qed.

(** X12.  Completeness of the single-level wildcard, on the engine of
    [Regex]: for a pattern of the fragment with a [+], no [#] and no
    [vessels/self/], every topic obtained from the pattern by putting a
    non-empty text without slash in the place of each [+] is accepted. *)
Theorem plus_accepts_every_level self pattern levels :
  includes pattern "#" = false -> includes pattern "+" = true ->
  includes pattern "vessels/self/" = false ->
  Regex.inFragment pattern = true ->
  forallb isLevel levels = true ->
  topicMatches Regex.engine self pattern (instantiate pattern levels) = Some true.
Proof.
  intros Hhash Hplus Hself Hfrag Hlevels.
  rewrite (topicMatches_wildcard self pattern _ Hhash Hplus Hself Hfrag). f_equal.
  apply orb_true_iff. left. apply test_denotes.
  exists EmptyString, (instantiate pattern levels), EmptyString.
  split; [|apply denotes_instantiate, Hlevels].
  rewrite append_nil_r. reflexivity.
Qed.

Lemma plus_accepts_every_level_witness :
  topicMatches Regex.engine None "vessels/+/navigation/+"
    "vessels/urn_mrn_imo_mmsi_8/navigation/position" = Some true.
Proof.
  exact (plus_accepts_every_level None "vessels/+/navigation/+"
           ["urn_mrn_imo_mmsi_8"; "position"] eq_refl eq_refl eq_refl eq_refl eq_refl).
Defined.

(** ** Rule scan *)

(** X13.  Soundness of the scan: whenever the loop ends normally, with a
    rule or without, its answer is the first qualifying rule of the list;
    a rule it selects is stored, enabled, matched and not excluded.  (The
    loop does not always end normally: see [findRule_disabled].) *)
Theorem scan_answer_is_first_qualifying re prefix self rules topic answer :
  findRule re prefix self rules topic = ScanEnded answer ->
  firstQualifying re prefix self rules topic = answer /\
  forall r, answer = Some r ->
    In r rules /\ enabled r = true /\
    topicMatches re self (expectedTopicOf prefix r) topic = Some true /\
    isMMSIExcluded topic r = false.
Proof.
  unfold firstQualifying.
  induction rules as [|r0 rest IH]; cbn [findRule List.find].
  - intros [= <-]. split; [reflexivity | discriminate].
  - unfold qualifies at 1. destruct (enabled r0) eqn:Hen; cbn [negb andb]; [|discriminate].
    destruct (topicMatches re self (expectedTopicOf prefix r0) topic) as [[|]|] eqn:Hm;
      cbn [andb]; [| |discriminate].
    + destruct (isMMSIExcluded topic r0) eqn:Hex; cbn [negb].
      * intros H. destruct (IH H) as [Hfirst Hprops]. split; [exact Hfirst|].
        intros r Hr. destruct (Hprops r Hr) as (Hin & Hrest). split; [right; exact Hin | exact Hrest].
      * intros [= <-]. split; [reflexivity|]. intros r [= <-].
        split; [left; reflexivity | auto].
    + intros H. destruct (IH H) as [Hfirst Hprops]. split; [exact Hfirst|].
      intros r Hr. destruct (Hprops r Hr) as (Hin & Hrest). split; [right; exact Hin | exact Hrest].
Qed.

Lemma scan_answer_is_first_qualifying_witness :
  firstQualifying Regex.engine "" None [excludingRule; plainRule]
    "vessels/urn_mrn_imo_mmsi_7/navigation/position" = Some plainRule.
Proof.
  exact (proj1 (scan_answer_is_first_qualifying Regex.engine "" None
                  [excludingRule; plainRule]
                  "vessels/urn_mrn_imo_mmsi_7/navigation/position" (Some plainRule) eq_refl)).
Defined.

Lemma findRule_enabled_witness :
  findRule Regex.engine "" None [excludingRule; plainRule]
    "vessels/urn_mrn_imo_mmsi_7/navigation/position" = ScanEnded (Some plainRule).
Proof.
  apply (findRule_enabled Regex.engine "" None
           "vessels/urn_mrn_imo_mmsi_7/navigation/position" [excludingRule; plainRule]).
  - reflexivity.
  - intros r [<-|[<-|[]]]; discriminate.
Defined.

(** ** The earlier revision *)

(** X14.  In the earlier revision disabled rules are transparent: the
    scan over a rule list answers what the scan over its enabled rules
    answers, so a disabled rule, wherever it is stored, hides no later
    rule. *)
Theorem earlier_scan_skips_disabled re prefix rules topic :
  findRuleV1 re prefix rules topic
  = findRuleV1 re prefix (List.filter enabled rules) topic.
Proof.
  induction rules as [|r rest IH]; [reflexivity|].
  cbn [findRuleV1 List.filter]. destruct (enabled r) eqn:Hen; cbn [negb].
  - cbn [findRuleV1]. rewrite Hen. cbn [negb].
    destruct (topicMatchesV1 re (expectedTopicOf prefix r) topic) as [[|]|];
      [reflexivity | exact IH | reflexivity].
  - exact IH.
Qed.

(** X15.  The later matcher extends the earlier one: a topic the earlier
    matcher accepts for a pattern is never rejected by the later one; it is
    accepted, unless one of the additional expressions the later matcher
    builds fails to compile. *)
Theorem later_matcher_extends_earlier re self pattern topic :
  topicMatchesV1 re pattern topic = Some true ->
  topicMatches re self pattern topic = Some true \/
  topicMatches re self pattern topic = None.
Proof.
  unfold topicMatchesV1, topicMatches.
  destruct (includes pattern "#").
  - intros [= H]. left. rewrite H.
    destruct (selfBranch (replace pattern "#" "") self); reflexivity.
  - destruct (includes pattern "+").
    + destruct (RegExp_new re (wildcardSource pattern)) as [regex|]; [|discriminate].
      intros [= H]. rewrite H.
      destruct (selfBranch pattern self) as [urn|].
      * destruct (RegExp_new re (wildcardSource (substituteSelf pattern urn)));
          [|right; reflexivity].
        destruct (substituteUnderscore pattern (urnToMqttFormat (Some urn))) as [p|];
          [|left; reflexivity].
        destruct (truthy p); [|left; reflexivity].
        destruct (RegExp_new re (wildcardSource p)); [left; reflexivity | right; reflexivity].
      * destruct (RegExp_new re (wildcardSource (replaceAllChar "_" ":" pattern)));
          [left; reflexivity | right; reflexivity].
    + intros [= H]. left. rewrite H.
      destruct (selfBranch pattern self); reflexivity.
Qed.

Lemma later_matcher_extends_earlier_witness :
  topicMatches Regex.engine (Some "urn:mrn:imo:mmsi:1") "vessels/+/navigation/position"
    "vessels/urn_mrn_imo_mmsi_8/navigation/position" = Some true \/
  topicMatches Regex.engine (Some "urn:mrn:imo:mmsi:1") "vessels/+/navigation/position"
    "vessels/urn_mrn_imo_mmsi_8/navigation/position" = None.
Proof.
  apply later_matcher_extends_earlier. reflexivity.
Defined.

(** ** Subscriptions *)

Lemma listIncludes_true l x : listIncludes l x = true <-> In x l.
Proof.
  unfold listIncludes. rewrite existsb_exists. split.
  - intros (y & Hy & ->%String.eqb_eq). exact Hy.
  - intros H. exists x. split; [exact H | apply String.eqb_refl].
Qed.

Lemma Set_add_In x t topics : In t (Set_add x topics) <-> t = x \/ In t topics.
Proof.
  unfold Set_add. destruct (listIncludes topics x) eqn:E.
  - apply listIncludes_true in E. split; [auto | intros [->|H]; assumption].
  - rewrite in_app_iff. cbn [In]. split; [intros [H|[<-|[]]]; auto | intros [->|H]; auto].
Qed.

Lemma Set_add_NoDup x topics : NoDup topics -> NoDup (Set_add x topics).
Proof.
  intros Hnd. unfold Set_add. destruct (listIncludes topics x) eqn:E; [exact Hnd|].
  apply NoDup_app. split; [exact Hnd|]. split; [|apply NoDup_singleton].
  intros y Hy Hin. apply list_elem_of_singleton in Hin. subst y.
  apply list_elem_of_In, listIncludes_true in Hy. congruence.
Qed.

Lemma addSubscriptions_NoDup prefix self topics rule :
  NoDup topics -> NoDup (addSubscriptions prefix self topics rule).
Proof.
  intros Hnd. unfold addSubscriptions.
  destruct (selfBranch _ self) as [urn|].
  - destruct (includes urn ":"); repeat apply Set_add_NoDup; exact Hnd.
  - destruct (includes _ "urn_mrn_imo_mmsi_"); repeat apply Set_add_NoDup; exact Hnd.
Qed.

(** What a rule adds does not depend on what the set holds already. *)
Lemma addSubscriptions_In prefix self topics rule t :
  In t (addSubscriptions prefix self topics rule) <->
  In t topics \/ In t (addSubscriptions prefix self [] rule).
Proof.
  unfold addSubscriptions.
  destruct (selfBranch _ self) as [urn|].
  - destruct (includes urn ":"); rewrite !Set_add_In; cbn [In]; tauto.
  - destruct (includes _ "urn_mrn_imo_mmsi_"); rewrite !Set_add_In; cbn [In]; tauto.
Qed.

Lemma fold_addSubscriptions prefix self rules topics :
  NoDup topics ->
  NoDup (fold_left (addSubscriptions prefix self) rules topics) /\
  forall t, In t (fold_left (addSubscriptions prefix self) rules topics) <->
            In t topics \/
            exists r, In r rules /\ In t (addSubscriptions prefix self [] r).
Proof.
  revert topics. induction rules as [|r rest IH]; intros topics Hnd; cbn [fold_left].
  - split; [exact Hnd|]. intros t. split; [auto | intros [H|(r & [] & _)]; exact H].
  - destruct (IH _ (addSubscriptions_NoDup prefix self topics r Hnd)) as [Hnd' Hin].
    split; [exact Hnd'|]. intros t. rewrite Hin, addSubscriptions_In. split.
    + intros [[H|H]|(r' & Hr' & H)]; [auto | right; exists r; split; [left; reflexivity | exact H]|].
      right. exists r'. split; [right; exact Hr' | exact H].
    + intros [H|(r' & [<-|Hr'] & H)]; [auto | auto|].
      right. exists r'. split; assumption.
Qed.

(** X16.  [subscribeToMQTTTopics] subscribes to no topic twice, to nothing
    at all without a connected client, and to a topic only on behalf of an
    enabled rule: each subscribed topic is one of those that some stored,
    enabled rule adds on its own, and each of those is subscribed. *)
Theorem subscriptions_are_distinct_and_owned connected cfg :
  NoDup (subscribeToMQTTTopics connected cfg) /\
  (connected = false -> subscribeToMQTTTopics connected cfg = []) /\
  (connected = true ->
   forall t, In t (subscribeToMQTTTopics connected cfg) <->
             exists r, In r (importRules cfg) /\ enabled r = true /\
                       In t (addSubscriptions (topicPrefix cfg) (selfVesselUrn cfg) [] r)).
Proof.
  unfold subscribeToMQTTTopics. destruct connected.
  - destruct (fold_addSubscriptions (topicPrefix cfg) (selfVesselUrn cfg)
                (List.filter enabled (importRules cfg)) [] NoDup_nil_2) as [Hnd Hin].
    split; [exact Hnd|]. split; [discriminate|]. intros _ t. rewrite Hin. cbn [In]. split.
    + intros [[]|(r & Hr & Ht)]. apply filter_In in Hr as [Hr Hen]. eauto.
    + intros (r & Hr & Hen & Ht). right. exists r. split; [apply filter_In; auto | exact Ht].
  - split; [apply NoDup_nil_2|]. split; [reflexivity | discriminate].
Qed.

Lemma truthy_app_r (s t : string) : truthy t = true -> truthy (s +:+ t) = true.
Proof. destruct s; [tauto | reflexivity]. Qed.

Lemma truthy_app_l (s t : string) : truthy s = true -> truthy (s +:+ t) = true.
Proof. destruct s; [discriminate | reflexivity]. Qed.

Lemma substituteSelf_truthy pattern urn :
  includes pattern "vessels/self/" = true -> truthy (substituteSelf pattern urn) = true.
Proof.
  unfold includes, substituteSelf, replace.
  destruct (splitAtFirst "vessels/self/" pattern) as [[before after]|]; [|discriminate].
  intros _. apply truthy_app_r, truthy_app_l.
  change ("vessels/" +:+ urn +:+ "/") with (String "v" ("essels/" +:+ urn +:+ "/")).
  reflexivity.
Qed.

Lemma selfBranch_Some pattern self urn :
  selfBranch pattern self = Some urn ->
  includes pattern "vessels/self/" = true /\ truthy urn = true.
Proof.
  unfold selfBranch, selfResolved.
  destruct (includes pattern "vessels/self/"); [|discriminate].
  destruct self as [u|]; [|discriminate].
  destruct (truthy u) eqn:E; [|discriminate]. intros [= <-]. auto.
Qed.

(** X17.  Subscription and matching agree for a rule without wildcard:
    every topic the rule makes the plugin subscribe to is accepted by the
    matcher for that rule, the canonical rewrite of the pattern alone
    excepted (the matcher rewrites every underscore, the subscription only
    those of identifiers). *)
Theorem subscriptions_are_matched re prefix self rule t :
  let pattern := expectedTopicOf prefix rule in
  includes pattern "#" = false -> includes pattern "+" = false ->
  In t (addSubscriptions prefix self [] rule) ->
  t = canonicalUrnTopic pattern \/ topicMatches re self pattern t = Some true.
Proof.
  intros pattern Hhash Hplus. unfold addSubscriptions, topicMatches. fold pattern.
  rewrite Hhash, Hplus.
  destruct (selfBranch pattern self) as [urn|] eqn:Hself.
  - apply selfBranch_Some in Hself as [Hinc Hurn].
    assert (Hu : urnToMqttFormat (Some urn) = Some (replaceAllChar ":" "_" urn))
      by (unfold urnToMqttFormat; rewrite Hurn; reflexivity).
    rewrite Hu. cbn [interpolate substituteUnderscore].
    rewrite replaceAllChar_truthy, Hurn.
    rewrite (substituteSelf_truthy pattern _ Hinc). cbn [andb].
    intros Hin. right. f_equal.
    destruct (includes urn ":"); rewrite ?Set_add_In in Hin; cbn [In] in Hin.
    + destruct Hin as [->|[->|[]]]; rewrite String.eqb_refl, ?orb_true_r; reflexivity.
    + destruct Hin as [->|[]]. rewrite String.eqb_refl, ?orb_true_r. reflexivity.
  - intros Hin.
    destruct (includes pattern "urn_mrn_imo_mmsi_"); rewrite ?Set_add_In in Hin; cbn [In] in Hin.
    + destruct Hin as [->|[->|[]]]; [left; reflexivity|].
      right. rewrite String.eqb_refl. reflexivity.
    + destruct Hin as [->|[]]. right. rewrite String.eqb_refl. reflexivity.
Qed.

Lemma subscriptions_are_matched_witness :
  "vessels/urn_mrn_imo_mmsi_368396230/navigation/position"
  = canonicalUrnTopic "vessels/self/navigation/position" \/
  topicMatches Regex.engine (Some "urn:mrn:imo:mmsi:368396230")
    "vessels/self/navigation/position"
    "vessels/urn_mrn_imo_mmsi_368396230/navigation/position" = Some true.
Proof.
  apply (subscriptions_are_matched Regex.engine "" (Some "urn:mrn:imo:mmsi:368396230")
           (exampleRule "S" "vessels/self/navigation/position" "" true)).
  - reflexivity.
  - reflexivity.
  - vm_compute. right. left. reflexivity.
Defined.

(** ** Message keys *)

(** X18.  On topics without colon the key of the deduplication map tells
    messages apart: two messages with the same key have the same topic and
    the same payload, so a message on such a topic is only ever suppressed
    by an earlier copy of itself. *)
Theorem messageKey_injective_without_colon topic messageStr topic' messageStr' :
  freeOf ":" topic = true -> freeOf ":" topic' = true ->
  messageKey topic messageStr = messageKey topic' messageStr' ->
  topic = topic' /\ messageStr = messageStr'.
Proof.
  unfold messageKey, freeOf. revert topic'.
  induction topic as [|a topic IH]; intros [|b topic'] Ht Ht' Hkey.
  - change (String ":" messageStr = String ":" messageStr') in Hkey.
    injection Hkey as ->. split; reflexivity.
  - change (String ":" messageStr = String b (topic' +:+ ":" +:+ messageStr')) in Hkey.
    injection Hkey as <- _. discriminate Ht'.
  - change (String a (topic +:+ ":" +:+ messageStr) = String ":" messageStr') in Hkey.
    injection Hkey as -> _. discriminate Ht.
  - change (String a (topic +:+ ":" +:+ messageStr)
            = String b (topic' +:+ ":" +:+ messageStr')) in Hkey.
    injection Hkey as -> Hkey. cbn [allChars] in Ht, Ht'.
    apply andb_prop in Ht as [_ Ht]. apply andb_prop in Ht' as [_ Ht'].
    destruct (IH topic' Ht Ht' Hkey) as [-> ->]. split; reflexivity.
Qed.

Lemma messageKey_injective_without_colon_witness :
  "a/b" = "a/b" /\ "1:2" = "1:2".
Proof.
  exact (messageKey_injective_without_colon "a/b" "1:2" "a/b" "1:2" eq_refl eq_refl eq_refl).
Defined.

(** ** Derivation under a prefix *)

Lemma splitAtFirst_prefix pat s rest :
  stripPrefix pat s = Some rest -> splitAtFirst pat s = Some (EmptyString, rest).
Proof. intros H. destruct s; cbn [splitAtFirst]; rewrite H; reflexivity. Qed.

Lemma cleanTopicOf_prefixed prefix t :
  truthy prefix = true -> cleanTopicOf prefix (prefix +:+ "/" +:+ t) = t.
Proof.
  intros Hp. unfold cleanTopicOf, replace. rewrite Hp.
  rewrite (splitAtFirst_prefix (prefix +:+ "/") _ t).
  - reflexivity.
  - apply stripPrefix_spec. rewrite append_assoc. reflexivity.
Qed.

(** X19.  The configured prefix is taken off before the derivation: for a
    topic that starts with the prefix and a slash, the derived context and
    path are those that the rest of the topic gets without any prefix. *)
Theorem derivation_strips_prefix prefix self t :
  truthy prefix = true ->
  extractContextFromTopic prefix self (prefix +:+ "/" +:+ t)
  = extractContextFromTopic "" self t /\
  extractPathFromTopic prefix (prefix +:+ "/" +:+ t) = extractPathFromTopic "" t.
Proof.
  intros Hp. unfold extractContextFromTopic, extractPathFromTopic.
  rewrite (cleanTopicOf_prefixed prefix t Hp). split; reflexivity.
Qed.

Lemma derivation_strips_prefix_witness :
  extractContextFromTopic "boat" (Some "urn:mrn:imo:mmsi:1")
    "boat/vessels/urn_mrn_imo_mmsi_8/navigation/position"
  = "vessels.urn:mrn:imo:mmsi:8" /\
  extractPathFromTopic "boat" "boat/vessels/urn_mrn_imo_mmsi_8/navigation/position"
  = "navigation.position".
Proof.
  exact (derivation_strips_prefix "boat" (Some "urn:mrn:imo:mmsi:1")
           "vessels/urn_mrn_imo_mmsi_8/navigation/position" eq_refl).
Defined.

(** ** Provenance of the deduplication map *)

Lemma In_deleteAll e batch m : In e (deleteAll batch m) -> In e m.
Proof.
  unfold deleteAll. revert m. induction batch as [|b batch IH]; intros m; cbn [fold_left].
  - tauto.
  - intros H. apply IH in H. unfold JsMap.delete in H. apply filter_In in H. tauto.
Qed.

Lemma In_cleanup e m : In e (cleanupOldMessages m) -> In e m.
Proof.
  unfold cleanupOldMessages. destruct (1000 <? JsMap.size m)%nat; [apply In_deleteAll | tauto].
Qed.

Lemma provenance_from (events : list Event) :
  forall (seen : list Event) (m : JsMap.t),
    (forall k v, In (k, v) m ->
       exists rt cfg clock topic messageStr,
         In (Message rt cfg clock topic messageStr) seen /\
         k = messageKey topic messageStr /\ v = now clock) ->
    forall k v, In (k, v) (fold_left step events m) ->
      exists rt cfg clock topic messageStr,
        In (Message rt cfg clock topic messageStr) (seen ++ events) /\
        k = messageKey topic messageStr /\ v = now clock.
Proof.
  induction events as [|e events IH]; intros seen m Hm k v Hin; cbn [fold_left] in Hin.
  - rewrite app_nil_r. exact (Hm k v Hin).
  - replace (seen ++ e :: events) with ((seen ++ [e]) ++ events)
      by (rewrite <- app_assoc; reflexivity).
    apply (IH (seen ++ [e]) (step m e)); [|exact Hin].
    clear k v Hin. intros k v Hin.
    assert (Hold : forall k v, In (k, v) m ->
              exists rt cfg clock topic messageStr,
                In (Message rt cfg clock topic messageStr) (seen ++ [e]) /\
                k = messageKey topic messageStr /\ v = now clock).
    { intros k' v' H. destruct (Hm k' v' H) as (rt & cfg & clock & topic & msg & Hs & Hk & Hv).
      exists rt, cfg, clock, topic, msg. split; [apply in_or_app; left; exact Hs | auto]. }
    destruct e as [rt cfg clock topic messageStr|]; cbn [step] in Hin; [|destruct Hin].
    destruct (handle_map rt cfg clock m topic messageStr) as [Heq|[Hkey Heq]];
      rewrite Heq in Hin; [exact (Hold k v Hin)|].
    apply In_cleanup in Hin. rewrite (set_absent _ _ _ Hkey) in Hin.
    apply in_app_or in Hin as [Hin|[[= <- <-]|[]]]; [exact (Hold k v Hin)|].
    exists rt, cfg, clock, topic, messageStr.
    split; [apply in_or_app; right; left; reflexivity | auto].
Qed.

(** X20.  After any run, every entry of the deduplication map stems from a
    message of the run: its key is the key of that message and its instant
    is the clock reading when that message was handled.  The map never
    holds anything else. *)
Theorem cache_holds_only_received_messages (events : list Event) k v :
  In (k, v) (run events) ->
  exists rt cfg clock topic messageStr,
    In (Message rt cfg clock topic messageStr) events /\
    k = messageKey topic messageStr /\ v = now clock.
Proof.
  intros Hin.
  exact (provenance_from events [] JsMap.empty (fun k v (H : In (k, v) []) => match H with end)
           k v Hin).
Qed.

Lemma cache_holds_only_received_messages_witness :
  exists rt cfg clock topic messageStr,
    In (Message rt cfg clock topic messageStr)
       [Message (exampleRuntime numberTable) (exampleConfig [underA]) exampleClock "a/b" "1"] /\
    "a/b:1" = messageKey topic messageStr /\ now exampleClock = now clock.
Proof.
  apply (cache_holds_only_received_messages
           [Message (exampleRuntime numberTable) (exampleConfig [underA]) exampleClock "a/b" "1"]).
  vm_compute. left. reflexivity.
Defined.
